(** * RepMate: size-chart reconstruction and fit scoring

    A shallow embedding of the size calculator ([sizeCalculator.js]:
    [calculateMeasurementFit], [calculateSizeFit], [calculateRecommendations])
    and of the OCR parser ([src/lib/ocrParser.js]: [containsSizeGuide]
    over a model of JavaScript regular expressions, and the top level of
    [parseSizeChart], whose parsing strategies are taken as given
    functions of the text).

    JavaScript numbers are modelled as exact rationals [Q]; every formula
    of the source is transcribed with the same operations.  JavaScript
    objects used as records keyed by strings are association lists in
    insertion order. *)

From Stdlib Require Import QArith Qabs Qminmax Qround Lqa Ascii String List Bool ZArith Lia
  Permutation Sorted.
Import ListNotations.
Open Scope Q_scope.
Open Scope string_scope.


(* ================================================================= *)
(** ** JavaScript string helpers (on ASCII text) *)

Module JsStr.

Definition is_upper (c : Ascii.ascii) : bool :=
  let n := Ascii.nat_of_ascii c in (Nat.leb 65 n && Nat.leb n 90)%bool.
Definition is_lower (c : Ascii.ascii) : bool :=
  let n := Ascii.nat_of_ascii c in (Nat.leb 97 n && Nat.leb n 122)%bool.

(** [String.prototype.toUpperCase] / [toLowerCase] on ASCII letters. *)
Fixpoint toUpperCase (s : string) : string :=
  match s with
  | EmptyString => EmptyString
  | String c r =>
      String (if is_lower c then Ascii.ascii_of_nat (Ascii.nat_of_ascii c - 32) else c)
             (toUpperCase r)
  end.

Fixpoint toLowerCase (s : string) : string :=
  match s with
  | EmptyString => EmptyString
  | String c r =>
      String (if is_upper c then Ascii.ascii_of_nat (Ascii.nat_of_ascii c + 32) else c)
             (toLowerCase r)
  end.

(** White space removed by [trim] and skipped by [parseInt] (ASCII part:
    tab, line feed, vertical tab, form feed, carriage return, space). *)
Definition is_ws (c : Ascii.ascii) : bool :=
  let n := Ascii.nat_of_ascii c in (Nat.eqb n 32 || (Nat.leb 9 n && Nat.leb n 13))%bool.

Fixpoint trim_start (s : string) : string :=
  match s with
  | String c r => if is_ws c then trim_start r else s
  | EmptyString => EmptyString
  end.

Definition rev_string (s : string) : string :=
  string_of_list_ascii (rev (list_ascii_of_string s)).

Definition trim (s : string) : string := rev_string (trim_start (rev_string (trim_start s))).

Definition digit_value (radix : Z) (c : Ascii.ascii) : option Z :=
  let n := Z.of_nat (Ascii.nat_of_ascii c) in
  let d := if (48 <=? n)%Z && (n <=? 57)%Z then Some (n - 48)%Z
           else if (97 <=? n)%Z && (n <=? 122)%Z then Some (n - 87)%Z
           else if (65 <=? n)%Z && (n <=? 90)%Z then Some (n - 55)%Z
           else None in
  match d with Some v => if (v <? radix)%Z then Some v else None | None => None end.

(** Longest prefix of digits in [radix]: its value and its length. *)
Fixpoint digits_prefix (radix acc : Z) (len : nat) (s : string) : Z * nat :=
  match s with
  | String c r =>
      match digit_value radix c with
      | Some d => digits_prefix radix (acc * radix + d)%Z (S len) r
      | None => (acc, len)
      end
  | EmptyString => (acc, len)
  end.

(** [parseInt(s)] with no radix: [None] is [NaN]. *)
Definition parseInt (s : string) : option Z :=
  let s1 := trim_start s in
  let '(sign, s2) :=
    match s1 with
    | String "-"%char r => ((-1)%Z, r)
    | String "+"%char r => (1%Z, r)
    | _ => (1%Z, s1)
    end in
  let '(radix, s3) :=
    match s2 with
    | String "0"%char (String "x"%char r) => (16%Z, r)
    | String "0"%char (String "X"%char r) => (16%Z, r)
    | _ => (10%Z, s2)
    end in
  match digits_prefix radix 0 0 s3 with
  | (_, O) => None
  | (v, _) => Some (sign * v)%Z
  end.

Fixpoint nat_to_dec_aux (fuel : nat) (n : nat) (acc : string) : string :=
  match fuel with
  | O => acc
  | S f =>
      let d := Ascii.ascii_of_nat (48 + Nat.modulo n 10) in
      let q := Nat.div n 10 in
      if Nat.eqb q 0 then String d acc else nat_to_dec_aux f q (String d acc)
  end.

(** [String(n)] for an integer [n]. *)
Definition Z_to_string (z : Z) : string :=
  let n := Z.to_nat (Z.abs z) in
  let digits := nat_to_dec_aux (S n) n EmptyString in
  if (z <? 0)%Z then String "-"%char digits else digits.

(** [arr.indexOf(x)] on a list of strings. *)
Fixpoint indexOf (x : string) (l : list string) : Z :=
  match l with
  | [] => (-1)%Z
  | y :: r => if String.eqb y x then 0%Z else
               let i := indexOf x r in if (i <? 0)%Z then i else (i + 1)%Z
  end.

End JsStr.

(* ================================================================= *)
(** ** Fit scorer *)

Module Fit.

(** An ease allowance [{ min, ideal, max }]. *)
Record Ease := mkEase { emin : Q; eideal : Q; emax : Q }.

(** The result [{ score, fit, diff }] of [calculateMeasurementFit]. *)
Record MeasureFit := mkMeasureFit { mscore : Q; mfit : string; mdiff : Q }.

Definition Qltb (a b : Q) : bool := negb (Qle_bool b a).

(** [Math.max] on two finite numbers. *)
Definition js_max (a b : Q) : Q := if Qle_bool a b then b else a.

(** [calculateMeasurementFit(garmentMeasure, bodyMeasure, ease)].
    (With [ease.min = ease.ideal] the source divides [0/0] and yields
    [NaN]; [Q] gives [0] there.  The claims below assume
    [min < ideal < max].) *)
Definition calculateMeasurementFit (garmentMeasure bodyMeasure : Q) (ease : Ease)
  : MeasureFit :=
  let diff := garmentMeasure - bodyMeasure in
  if Qltb diff (emin ease) then
    mkMeasureFit (js_max 0 ((1#2) - (emin ease - diff) * (1#10))) "tight" diff
  else if Qle_bool (emin ease) diff && Qle_bool diff (eideal ease) then
    let range := eideal ease - emin ease in
    let position := diff - emin ease in
    mkMeasureFit ((7#10) + (position / range) * (3#10)) "right" diff
  else if Qltb (eideal ease) diff && Qle_bool diff (emax ease) then
    let range := emax ease - eideal ease in
    let position := diff - eideal ease in
    mkMeasureFit (1 - (position / range) * (2#10)) "loose" diff
  else
    mkMeasureFit (js_max (3#10) ((8#10) - (diff - emax ease) * (5#100))) "oversized" diff.

(** A size row: its [size] label and its numeric measurement keys, in
    insertion order. *)
Record Row := mkRow { size : string; meas : list (string * Q) }.

(** Property read [obj[key]] on a string-keyed object; [None] stands for
    [undefined]. *)
Fixpoint lookup (key : string) (l : list (string * Q)) : option Q :=
  match l with
  | [] => None
  | (k, v) :: rest => if String.eqb k key then Some v else lookup key rest
  end.

(** Property read on an object whose values are of type [A]. *)
Fixpoint get {A : Type} (key : string) (l : list (string * A)) : option A :=
  match l with
  | [] => None
  | (k, v) :: rest => if String.eqb k key then Some v else get key rest
  end.

(** [EASE_ALLOWANCES.top] and [EASE_ALLOWANCES.bottom], in declaration
    order (the order of [Object.entries]). *)
Definition ease_top : list (string * Ease) :=
  [("chest", mkEase 4 8 16); ("shoulder", mkEase 0 2 6);
   ("sleeve", mkEase (-2) 0 4); ("length", mkEase (-2) 2 8)].

Definition ease_bottom : list (string * Ease) :=
  [("waist", mkEase 2 4 10); ("hip", mkEase 2 6 14);
   ("length", mkEase (-4) 0 4); ("thigh", mkEase 2 6 12)].

(** [EASE_ALLOWANCES[garmentType] || EASE_ALLOWANCES.top]. *)
Definition easeConfigFor (garmentType : string) : list (string * Ease) :=
  if String.eqb garmentType "bottom" then ease_bottom else ease_top.

(** [garmentValue / userValue < 0.7] with JavaScript division: a zero
    divisor gives [-Infinity] (below [0.7]) for a negative dividend, and
    [+Infinity] or [NaN] (not below) otherwise. *)
Definition ratio_below (garmentValue userValue c : Q) : bool :=
  if Qeq_bool userValue 0 then Qltb garmentValue 0
  else Qltb (garmentValue / userValue) c.

(** The half-measurement correction of [calculateSizeFit]. *)
Definition adjustGarment (key : string) (garmentValue userValue : Q) : Q :=
  if String.eqb key "waist" || String.eqb key "hip" || String.eqb key "chest" then
    if ratio_below garmentValue userValue (7#10) then garmentValue * 2
    else if Qltb garmentValue 70 && String.eqb key "chest" then garmentValue * 2
    else if Qltb garmentValue 50 && (String.eqb key "waist" || String.eqb key "hip")
    then garmentValue * 2
    else garmentValue
  else garmentValue.

(** Garment key aliases: [bust] for [chest]. *)
Definition garmentValueOf (key : string) (sizeData : Row) : option Q :=
  match lookup key (meas sizeData) with
  | Some v => Some v
  | None => if String.eqb key "chest" then lookup "bust" (meas sizeData) else None
  end.

(** User key aliases: [topLength], then [pantsLength], for [length]. *)
Definition userValueOf (key : string) (userMeasurements : list (string * Q)) : option Q :=
  match lookup key userMeasurements with
  | Some v => Some v
  | None =>
      if String.eqb key "length" then
        match lookup "topLength" userMeasurements with
        | Some v => Some v
        | None => lookup "pantsLength" userMeasurements
        end
      else None
  end.

(** [key.charAt(0).toUpperCase() + key.slice(1)] (ASCII keys). *)
Definition capitalize (key : string) : string :=
  match key with
  | EmptyString => EmptyString
  | String c rest =>
      let n := Ascii.nat_of_ascii c in
      let c' := if (Nat.leb 97 n && Nat.leb n 122)%bool
                then Ascii.ascii_of_nat (n - 32) else c in
      String c' rest
  end.

(** One entry of [details]: [{ garment, body, ...fitResult }]. *)
Record Detail := mkDetail { dgarment : Q; dbody : Q; dres : MeasureFit }.

(** The loop state of [calculateSizeFit]. *)
Record SizeAcc := mkSizeAcc {
  totalScore : Q; measurementCount : nat;
  garmentBiggerCount : nat; garmentSmallerCount : nat;
  details : list (string * Detail); notes : list string }.

Definition acc0 : SizeAcc := mkSizeAcc 0 0 0 0 [] [].

(** One iteration of [for (const [key, ease] of Object.entries(easeConfig))]. *)
Definition sizeFitStep (sizeData : Row) (userMeasurements : list (string * Q))
  (acc : SizeAcc) (entry : string * Ease) : SizeAcc :=
  let (key, ease) := entry in
  match garmentValueOf key sizeData, userValueOf key userMeasurements with
  | Some garmentValue, Some userValue =>
      let adjustedGarment := adjustGarment key garmentValue userValue in
      let fitResult := calculateMeasurementFit adjustedGarment userValue ease in
      let big := if Qltb 0 (mdiff fitResult) then 1%nat else 0%nat in
      let small := if Qltb 0 (mdiff fitResult) then 0%nat
                   else if Qltb (mdiff fitResult) 0 then 1%nat else 0%nat in
      let note :=
        if String.eqb (mfit fitResult) "tight" then [capitalize key ++ " may be tight"]
        else if String.eqb (mfit fitResult) "oversized"
        then [capitalize key ++ " may be very loose"] else [] in
      mkSizeAcc (totalScore acc + mscore fitResult) (S (measurementCount acc))
        (garmentBiggerCount acc + big) (garmentSmallerCount acc + small)
        (details acc ++ [(key, mkDetail adjustedGarment userValue fitResult)])
        (notes acc ++ note)
  | _, _ => acc
  end.

Definition sizeFitLoop (sizeData : Row) (userMeasurements : list (string * Q))
  (garmentType : string) : SizeAcc :=
  fold_left (sizeFitStep sizeData userMeasurements) (easeConfigFor garmentType) acc0.

(** [measurementCount > 0 ? totalScore / measurementCount : 0]. *)
Definition avgScoreOf (acc : SizeAcc) : Q :=
  match measurementCount acc with
  | O => 0
  | S _ => totalScore acc / inject_Z (Z.of_nat (measurementCount acc))
  end.

(** The overall category from [avgScore] and [isGarmentTooBig]. *)
Definition overallFit (avgScore : Q) (isGarmentTooBig : bool) : string :=
  if Qle_bool (85#100) avgScore then "right"
  else if Qle_bool (7#10) avgScore then (if isGarmentTooBig then "loose" else "tight")
  else if Qle_bool (5#10) avgScore then (if isGarmentTooBig then "oversized" else "tight")
  else (if isGarmentTooBig then "too_big" else "too_small").

(** [Math.round(x * 100) / 100]; [Math.round(y)] is [floor(y + 0.5)]. *)
Definition round2 (x : Q) : Q := inject_Z (Qfloor (x * 100 + (1#2))) / 100.

(** The result [{ score, fit, details, notes }] of [calculateSizeFit]. *)
Record SizeFit := mkSizeFit {
  sscore : Q; sfit : string; sdetails : list (string * Detail); snotes : list string }.

Definition calculateSizeFit (sizeData : Row) (userMeasurements : list (string * Q))
  (garmentType : string) : SizeFit :=
  let acc := sizeFitLoop sizeData userMeasurements garmentType in
  let avgScore := avgScoreOf acc in
  let isGarmentTooBig := Nat.leb (garmentSmallerCount acc) (garmentBiggerCount acc) in
  mkSizeFit (round2 avgScore) (overallFit avgScore isGarmentTooBig)
    (details acc) (notes acc).

End Fit.

(* ================================================================= *)
(** ** Size order helpers ([translations.js]) and recommendations *)

Module Recommend.
Import Fit.

Definition SIZE_ORDER : list string :=
  ["XXS"; "XS"; "S"; "M"; "L"; "XL"; "XXL"; "XXXL"; "3XL"; "4XL"; "5XL"].
Definition NUMERIC_SIZE_ORDER : list string :=
  ["44"; "46"; "48"; "50"; "52"; "54"; "56"; "58"].

(** [getNextSizeUp(currentSize)]; [None] is [null]. *)
Definition getNextSizeUp (currentSize : string) : option string :=
  let normalized := JsStr.trim (JsStr.toUpperCase currentSize) in
  let letterIndex := JsStr.indexOf normalized SIZE_ORDER in
  if ((letterIndex >=? 0) && (letterIndex <? Z.of_nat (length SIZE_ORDER) - 1))%Z
  then nth_error SIZE_ORDER (Z.to_nat (letterIndex + 1))
  else
    let numericIndex := JsStr.indexOf normalized NUMERIC_SIZE_ORDER in
    if ((numericIndex >=? 0) && (numericIndex <? Z.of_nat (length NUMERIC_SIZE_ORDER) - 1))%Z
    then nth_error NUMERIC_SIZE_ORDER (Z.to_nat (numericIndex + 1))
    else match JsStr.parseInt normalized with
         | Some num => Some (JsStr.Z_to_string (num + 2))
         | None => None
         end.

(** [compareSizes(sizeA, sizeB)]. *)
Definition compareSizes (sizeA sizeB : string) : Z :=
  let normA := JsStr.trim (JsStr.toUpperCase sizeA) in
  let normB := JsStr.trim (JsStr.toUpperCase sizeB) in
  let letterIndexA := JsStr.indexOf normA SIZE_ORDER in
  let letterIndexB := JsStr.indexOf normB SIZE_ORDER in
  if ((letterIndexA =? -1) || (letterIndexB =? -1))%Z then
    match JsStr.parseInt normA, JsStr.parseInt normB with
    | Some numA, Some numB => (numA - numB)%Z
    | _, _ => 0%Z
    end
  else (letterIndexA - letterIndexB)%Z.

(** [Array.prototype.sort] with a comparator returning a number: a stable
    sort (ECMAScript 2019), modelled by insertion sort.  An element is
    inserted before the first element it compares below, so elements that
    compare equal keep their input order. *)
Section StableSort.
Variable A : Type.
Variable cmp : A -> A -> Q.

Fixpoint insert_sorted (x : A) (l : list A) : list A :=
  match l with
  | [] => [x]
  | y :: r => if Qltb (cmp x y) 0 then x :: y :: r else y :: insert_sorted x r
  end.

Definition js_sort (l : list A) : list A :=
  fold_left (fun acc x => insert_sorted x acc) l [].
End StableSort.
Arguments insert_sorted {A} cmp x l.
Arguments js_sort {A} cmp l.

(** An entry of [results]: [{ size: row.size, ...fitResult }]. *)
Record Result := mkResult { rsize : string; rfit : SizeFit }.

Definition rscore (r : Result) : Q := sscore (rfit r).

(** The ranking comparator of [calculateRecommendations]. *)
Definition rankCmp (sizeOrder : list string) (a b : Result) : Q :=
  if negb (Qeq_bool (rscore b) (rscore a)) then rscore b - rscore a
  else
    let aIndex := JsStr.indexOf (rsize a) sizeOrder in
    let bIndex := JsStr.indexOf (rsize b) sizeOrder in
    inject_Z (bIndex - aIndex).

(** [a] is ranked strictly before [b]: a higher score, or an equal score
    and a later first occurrence of its label in [sizeOrder]. *)
Definition rank_prec (sizeOrder : list string) (a b : Result) : Prop :=
  rscore b < rscore a \/
  (rscore a == rscore b /\
   (JsStr.indexOf (rsize b) sizeOrder < JsStr.indexOf (rsize a) sizeOrder)%Z).

(** [baggyMargin = { type, value }]. *)
Record BaggyMargin := mkBaggy { btype : string; bvalue : Q }.

(** The user-facing [{ size, confidence, notes }] and [{ size, fit, score }]. *)
Record Pick := mkPick { psize : string; pconfidence : Q; pnotes : list string }.
Record SizeEntry := mkSizeEntry { esize : string; efit : string; escore : Q }.
Record Recs := mkRecs {
  rightFit : option Pick; baggyFit : option Pick; allSizes : list SizeEntry }.

Definition toPick (r : Result) : Pick := mkPick (rsize r) (rscore r) (snotes (rfit r)).
Definition toEntry (r : Result) : SizeEntry :=
  mkSizeEntry (rsize r) (sfit (rfit r)) (rscore r).

Definition rowResults (rows : list Row) (userMeasurements : list (string * Q))
  (garmentType : string) : list Result :=
  map (fun row => mkResult (size row) (calculateSizeFit row userMeasurements garmentType))
    rows.

(** [results] after [results.sort(...)]. *)
Definition rankedResults (rows : list Row) (userMeasurements : list (string * Q))
  (garmentType : string) : list Result :=
  js_sort (rankCmp (map size rows)) (rowResults rows userMeasurements garmentType).

(** The ranking as the spec words it (not the source): descending score,
    exact ties broken by the larger row index of the chart. *)
Definition claim_allSizes (rows : list Row) (userMeasurements : list (string * Q))
  (garmentType : string) : list SizeEntry :=
  let results := rowResults rows userMeasurements garmentType in
  let indexed := combine (seq 0 (length results)) results in
  map (fun p => toEntry (snd p))
    (js_sort (fun a b =>
                if negb (Qeq_bool (rscore (snd b)) (rscore (snd a)))
                then rscore (snd b) - rscore (snd a)
                else inject_Z (Z.of_nat (fst b) - Z.of_nat (fst a))) indexed).

(** The number of iterations of [for (let i = 0; i < value; i++)]. *)
Definition loopCount (value : Q) : nat :=
  if Qle_bool value 0 then O else Z.to_nat (Qceiling value).

Definition nextSizeStep (targetSize : string) : string :=
  match getNextSizeUp targetSize with Some n => n | None => targetSize end.

Fixpoint find_result (p : Result -> bool) (l : list Result) : option Result :=
  match l with
  | [] => None
  | r :: rest => if p r then Some r else find_result p rest
  end.

Fixpoint findIndex_row (s : string) (l : list Row) (i : nat) : option nat :=
  match l with
  | [] => None
  | r :: rest => if String.eqb (size r) s then Some i else findIndex_row s rest (S i)
  end.

(** The [baggyMargin.type === 'size'] branch.  [None] is a thrown
    [TypeError]: [sortedBySizeOrder[i].size] with [i] negative or not an
    integer reads [.size] of [undefined]. *)
Definition baggyBySize (rows : list Row) (results : list Result) (rf : Result)
  (value : Q) : option (option Result) :=
  let targetSize := Nat.iter (loopCount value) nextSizeStep (rsize rf) in
  match find_result (fun r => String.eqb (JsStr.toUpperCase (rsize r))
                                          (JsStr.toUpperCase targetSize)) results with
  | Some r => Some (Some r)
  | None =>
      let sortedBySizeOrder := js_sort (fun a b => inject_Z (compareSizes (size a) (size b))) rows in
      match findIndex_row (rsize rf) sortedBySizeOrder 0 with
      | None => Some None
      | Some rightSizeIndex =>
          let idx := inject_Z (Z.of_nat rightSizeIndex) + value in
          if Qltb idx (inject_Z (Z.of_nat (length sortedBySizeOrder))) then
            if Qle_bool 0 idx && Qeq_bool idx (inject_Z (Qfloor idx)) then
              match nth_error sortedBySizeOrder (Z.to_nat (Qfloor idx)) with
              | Some row => Some (find_result (fun r => String.eqb (rsize r) (size row)) results)
              | None => None
              end
            else None
          else Some None
      end
  end.

(** The half-measurement adjustment of the [cm]/[percent] branch. *)
Definition baggyAdjust (primaryKey : string) (garmentValue : Q) : Q :=
  let g1 := if Qltb garmentValue 70 && String.eqb primaryKey "chest"
            then garmentValue * 2 else garmentValue in
  if Qltb g1 50 && String.eqb primaryKey "waist" then g1 * 2 else g1.

(** The scan for [bestMatch]: [bestDiff] starts at [Infinity] ([None]). *)
Fixpoint bestMatchLoop (primaryKey : string) (target : Q) (rows : list Row)
  (bestDiff : option Q) (bestMatch : option string) : option string :=
  match rows with
  | [] => bestMatch
  | row :: rest =>
      match lookup primaryKey (meas row) with
      | Some g =>
          let diff := Qabs (baggyAdjust primaryKey g - target) in
          let better := match bestDiff with None => true | Some b => Qltb diff b end in
          if better then bestMatchLoop primaryKey target rest (Some diff) (Some (size row))
          else bestMatchLoop primaryKey target rest bestDiff bestMatch
      | None => bestMatchLoop primaryKey target rest bestDiff bestMatch
      end
  end.

Definition primaryKeyOf (garmentType : string) : string :=
  if String.eqb garmentType "top" then "chest" else "waist".

(** [targetMeasurement]; [None] is [NaN] (user value missing). *)
Definition targetOf (userMeasurements : list (string * Q)) (primaryKey : string)
  (baggyMargin : BaggyMargin) : option Q :=
  match lookup primaryKey userMeasurements with
  | None => None
  | Some u =>
      if String.eqb (btype baggyMargin) "cm" then Some (u + bvalue baggyMargin)
      else Some (u * (1 + bvalue baggyMargin / 100))
  end.

(** The [cm]/[percent] branch: the chosen row label, if any. *)
Definition baggyBestMatch (rows : list Row) (userMeasurements : list (string * Q))
  (garmentType : string) (baggyMargin : BaggyMargin) : option string :=
  let primaryKey := primaryKeyOf garmentType in
  match targetOf userMeasurements primaryKey baggyMargin with
  | None => None
  | Some target => bestMatchLoop primaryKey target rows None None
  end.

(** [calculateRecommendations(sizeChart, userMeasurements, garmentType,
    baggyMargin)] on the chart's [rows]; [None] is a thrown exception. *)
Definition calculateRecommendations (rows : list Row)
  (userMeasurements : list (string * Q)) (garmentType : string)
  (baggyMargin : BaggyMargin) : option Recs :=
  let results := rankedResults rows userMeasurements garmentType in
  let rightFit := hd_error results in
  let baggy :=
    match rightFit with
    | None => Some None
    | Some rf =>
        if String.eqb (btype baggyMargin) "size" then
          baggyBySize rows results rf (bvalue baggyMargin)
        else if String.eqb (btype baggyMargin) "cm" || String.eqb (btype baggyMargin) "percent"
        then
          match baggyBestMatch rows userMeasurements garmentType baggyMargin with
          | Some bestMatch =>
              if String.eqb bestMatch "" then Some None
              else Some (find_result (fun r => String.eqb (rsize r) bestMatch) results)
          | None => Some None
          end
        else Some None
    end in
  match baggy with
  | None => None
  | Some b =>
      let b' := match b with
                | Some r => Some r
                | None => if Nat.ltb 1 (length results) then nth_error results 1 else None
                end in
      Some (mkRecs (option_map toPick rightFit) (option_map toPick b')
              (map toEntry results))
  end.

(** The [cm]/[percent] selection as the specification words it: each
    candidate's primary value goes through the same half-measurement
    adjustment as the fit scorer ([adjustGarment], ratio test included)
    before its distance to the target is measured. *)
Fixpoint claim_bestMatchLoop (primaryKey : string) (userValue target : Q)
  (rows : list Row) (bestDiff : option Q) (bestMatch : option string) : option string :=
  match rows with
  | [] => bestMatch
  | row :: rest =>
      match lookup primaryKey (meas row) with
      | Some g =>
          let diff := Qabs (adjustGarment primaryKey g userValue - target) in
          let better := match bestDiff with None => true | Some b => Qltb diff b end in
          if better
          then claim_bestMatchLoop primaryKey userValue target rest (Some diff) (Some (size row))
          else claim_bestMatchLoop primaryKey userValue target rest bestDiff bestMatch
      | None => claim_bestMatchLoop primaryKey userValue target rest bestDiff bestMatch
      end
  end.

Definition claim_baggyBestMatch (rows : list Row) (userMeasurements : list (string * Q))
  (garmentType : string) (baggyMargin : BaggyMargin) : option string :=
  let primaryKey := primaryKeyOf garmentType in
  match lookup primaryKey userMeasurements, targetOf userMeasurements primaryKey baggyMargin with
  | Some u, Some target => claim_bestMatchLoop primaryKey u target rows None None
  | _, _ => None
  end.

End Recommend.

(* ================================================================= *)
(** ** JavaScript regular expressions *)

(** A small model of ECMAScript regular expressions, enough for the
    patterns of [ocrParser.js]: literal code units, classes, sequence,
    alternation, greedy bounded or unbounded repetition and [\b].  The
    matcher follows the specification's backtracking semantics
    (continuation passing, alternatives and greedy repetition tried in
    priority order, empty iterations past the minimum rejected), so the
    end position it returns is the one JavaScript returns.  Groups only
    record captures and do not change whether or where a match ends, so
    they are left out. *)
Module JsRegex.

(** A JavaScript string is a sequence of UTF-16 code units. *)
Definition jsstring := list Z.

Definition of_ascii (s : string) : jsstring :=
  map (fun c => Z.of_nat (nat_of_ascii c)) (list_ascii_of_string s).

Inductive regex : Type :=
| REmpty
| RChar (c : Z)
| RClass (p : Z -> bool)
| RSeq (r1 r2 : regex)
| RAlt (r1 r2 : regex)
| RRep (r : regex) (min : nat) (max : option nat)
| RWordBoundary.

(** [Canonicalize] without the [u] flag: a code unit is upper-cased,
    unless that maps a non-ASCII unit to an ASCII one.  Every letter in
    the patterns below is ASCII and the CJK units have no case, so the
    ASCII upper-casing is the whole of it here. *)
Definition canonicalize (ignoreCase : bool) (c : Z) : Z :=
  if ignoreCase && (97 <=? c)%Z && (c <=? 122)%Z then (c - 32)%Z else c.

Definition is_digit (c : Z) : bool := (48 <=? c)%Z && (c <=? 57)%Z.

Definition is_word_char (c : Z) : bool :=
  is_digit c || ((65 <=? c)%Z && (c <=? 90)%Z) || ((97 <=? c)%Z && (c <=? 122)%Z)
  || (c =? 95)%Z.

(** [\s]: WhiteSpace and LineTerminator code units. *)
Definition is_js_space (c : Z) : bool :=
  existsb (Z.eqb c) [9; 10; 11; 12; 13; 32; 160; 5760; 8232; 8233; 8239; 8287; 12288; 65279]%Z
  || ((8192 <=? c)%Z && (c <=? 8202)%Z).

Section Matcher.
Variable ignoreCase : bool.
Variable input : jsstring.

Definition char_at (i : nat) : option Z := nth_error input i.

Definition word_before (i : nat) : bool :=
  match i with
  | O => false
  | S j => match char_at j with Some c => is_word_char c | None => false end
  end.

Definition word_at (i : nat) : bool :=
  match char_at i with Some c => is_word_char c | None => false end.

(** [matcher r i k]: match [r] at position [i], then run the
    continuation [k] on the end position; the first success in priority
    order wins.  A repetition gets one unit of fuel per iteration: an
    iteration past the minimum must consume input, so
    [length input + min + 1] units are never exhausted. *)
Fixpoint matcher (r : regex) (i : nat) (k : nat -> option nat) {struct r} : option nat :=
  match r with
  | REmpty => k i
  | RChar c =>
      match char_at i with
      | Some x =>
          if Z.eqb (canonicalize ignoreCase x) (canonicalize ignoreCase c) then k (S i)
          else None
      | None => None
      end
  | RClass p =>
      match char_at i with
      | Some x => if p x then k (S i) else None
      | None => None
      end
  | RSeq r1 r2 => matcher r1 i (fun j => matcher r2 j k)
  | RAlt r1 r2 =>
      match matcher r1 i k with
      | Some e => Some e
      | None => matcher r2 i k
      end
  | RRep r1 mn mx =>
      let fix rep (fuel mn : nat) (mx : option nat) (x : nat) : option nat :=
        match mx with
        | Some O => k x
        | _ =>
            match fuel with
            | O => None
            | S fuel' =>
                let d := fun y =>
                  if Nat.eqb mn 0 && Nat.eqb y x then None
                  else rep fuel' (pred mn) (option_map pred mx) y in
                if Nat.eqb mn 0 then
                  match matcher r1 x d with
                  | Some e => Some e
                  | None => k x
                  end
                else matcher r1 x d
            end
        end in
      rep (S (length input + mn)) mn mx i
  | RWordBoundary =>
      if Bool.eqb (word_before i) (word_at i) then None else k i
  end.

End Matcher.

Record RegExp := mkRegExp { source : regex; ignoreCase : bool; global : bool }.

(** The loop of [RegExpBuiltinExec]: try positions [i], [i+1], ... *)
Fixpoint scan (re : RegExp) (s : jsstring) (i : nat) (fuel : nat) : option nat :=
  match fuel with
  | O => None
  | S f =>
      match matcher (ignoreCase re) s (source re) i Some with
      | Some e => Some e
      | None => scan re s (S i) f
      end
  end.

(** [re.test(s)] with the regex's [lastIndex]: the result and the new
    [lastIndex]. *)
Definition test (re : RegExp) (lastIndex : nat) (s : jsstring) : bool * nat :=
  let li := if global re then lastIndex else O in
  if Nat.ltb (length s) li then (false, if global re then O else lastIndex)
  else
    match scan re s li (S (length s - li)) with
    | Some e => (true, if global re then e else lastIndex)
    | None => (false, if global re then O else lastIndex)
    end.

(** [re] matches somewhere in [s]. *)
Definition occurs (re : RegExp) (s : jsstring) : bool :=
  existsb (fun i => match matcher (ignoreCase re) s (source re) i Some with
                    | Some _ => true | None => false end)
    (seq 0 (S (length s))).

(** Pattern-building helpers. *)
Definition lit (s : string) : regex :=
  fold_right (fun c r => RSeq (RChar c) r) REmpty (of_ascii s).

Definition cjk (cs : list Z) : regex :=
  fold_right (fun c r => RSeq (RChar c) r) REmpty cs.

Definition alts (rs : list regex) : regex :=
  match rs with
  | [] => RClass (fun _ => false)
  | r :: rest => fold_left RAlt rest r
  end.

Definition digit : regex := RClass is_digit.
Definition space : regex := RClass is_js_space.

End JsRegex.

(* ================================================================= *)
(** ** [containsSizeGuide] *)

Module SizeGuide.
Import JsRegex.

(** [SIZE_PATTERNS.sizeLabels]:
    [/\b(XXS|XS|S|M|L|XL|XXL|XXXL|3XL|4XL|5XL|\d{1,2})\b/gi]. *)
Definition sizeLabels : RegExp :=
  mkRegExp
    (RSeq RWordBoundary
       (RSeq (alts [lit "XXS"; lit "XS"; lit "S"; lit "M"; lit "L"; lit "XL"; lit "XXL";
                    lit "XXXL"; lit "3XL"; lit "4XL"; lit "5XL"; RRep digit 1 (Some 2%nat)])
          RWordBoundary))
    true true.

(** [SIZE_PATTERNS.measurementWithUnit] (flags [gi]): one or more
    digits, an optional dot, any digits, optional whitespace, then one of
    [cm], [inch], [in], a double quote, an apostrophe, 厘米, 公分 or 英寸. *)
Definition measurementWithUnit : RegExp :=
  mkRegExp
    (RSeq (RSeq (RRep digit 1 None) (RSeq (RRep (RChar 46) 0 (Some 1%nat)) (RRep digit 0 None)))
       (RSeq (RRep space 0 None)
          (alts [lit "cm"; lit "inch"; lit "in"; RChar 34; RChar 39;
                 cjk [0x5398; 0x7c73]; cjk [0x516c; 0x5206]; cjk [0x82f1; 0x5bf8]]%Z)))
    true true.

(** [SIZE_PATTERNS.tableNumbers]: [/\b(\d{2,3}(?:\.\d)?)\b/g]. *)
Definition tableNumbers : RegExp :=
  mkRegExp
    (RSeq RWordBoundary
       (RSeq (RSeq (RRep digit 2 (Some 3%nat)) (RRep (RSeq (RChar 46) digit) 0 (Some 1%nat)))
          RWordBoundary))
    false true.

(** [SIZE_PATTERNS.measurementKeywords]:
    [/(尺码|尺寸|衣长|胸围|肩宽|袖长|腰围|臀围|裤长|size|chest|length|shoulder|sleeve|waist|hip)/gi]. *)
Definition measurementKeywords : RegExp :=
  mkRegExp
    (alts [cjk [0x5c3a; 0x7801]; cjk [0x5c3a; 0x5bf8]; cjk [0x8863; 0x957f];
           cjk [0x80f8; 0x56f4]; cjk [0x80a9; 0x5bbd]; cjk [0x8896; 0x957f];
           cjk [0x8170; 0x56f4]; cjk [0x81c0; 0x56f4]; cjk [0x88e4; 0x957f];
           lit "size"; lit "chest"; lit "length"; lit "shoulder"; lit "sleeve";
           lit "waist"; lit "hip"]%Z)
    true true.

(** The [lastIndex] of the four shared global regexes of [SIZE_PATTERNS]
    (the module's state between calls). *)
Record LastIndices := mkLastIndices {
  li_sizeLabels : nat; li_measurementWithUnit : nat;
  li_tableNumbers : nat; li_measurementKeywords : nat }.

Definition li_zero : LastIndices := mkLastIndices 0 0 0 0.

(** [containsSizeGuide(text)]; [None] is [null]/[undefined]. *)
Definition containsSizeGuide (st : LastIndices) (text : option jsstring)
  : bool * LastIndices :=
  match text with
  | None | Some [] => (false, st)
  | Some t =>
      let (hasKeywords, _) := test measurementKeywords (li_measurementKeywords st) t in
      let st1 := mkLastIndices (li_sizeLabels st) (li_measurementWithUnit st)
                   (li_tableNumbers st) 0 in
      let (withUnit, liU) := test measurementWithUnit (li_measurementWithUnit st1) t in
      let (hasMeasurements, liT) :=
        if withUnit then (true, li_tableNumbers st1)
        else test tableNumbers (li_tableNumbers st1) t in
      let st2 := mkLastIndices (li_sizeLabels st1) 0 0 0 in
      let (hasSizeLabels, _) := test sizeLabels (li_sizeLabels st2) t in
      (hasKeywords && (hasMeasurements || hasSizeLabels), mkLastIndices 0 0 0 0)
  end.

(** The pre-filter as the specification words it: a keyword, and a
    unit-qualified number or a size token. *)
Definition claim_containsSizeGuide (text : option jsstring) : bool :=
  match text with
  | None | Some [] => false
  | Some t => occurs measurementKeywords t
              && (occurs measurementWithUnit t || occurs sizeLabels t)
  end.

End SizeGuide.

(* ================================================================= *)
(** ** [parseSizeChart]: the multi-table branch and the fallback *)

(** The top level of [parseSizeChart] (the first copy in
    [ocrParser.js]).  The text fix-ups and the parsing strategies it
    calls are taken as given functions of the text ([None] is a thrown
    exception); everything [parseSizeChart] itself does with their
    results is written out. *)
Module Parser.

Inductive JsVal : Type := JStr (s : string) | JNum (q : Q).

(** A row object: its own properties in insertion order. *)
Definition JsRow := list (string * JsVal).

(** A strategy result [{ headers, rows }] (a table of
    [parseMultipleTables] also carries a [garmentType], passed through
    unchanged and not needed here). *)
Record Table := mkTable { headers : list string; rows : list JsRow }.

(** The returned [{ headers, rows, tables, rawText, translatedText }]. *)
Record SizeChart := mkSizeChart {
  cheaders : list string; crows : list JsRow; ctables : list Table;
  crawText : string; ctranslatedText : string }.

Record Strategies := mkStrategies {
  fixOcrErrors : string -> string;          (* the four [.replace] calls *)
  translateChinese : string -> string;
  parseMultipleTables : string -> option (list Table);
  parseColumnGroupedFormat : string -> option Table;
  parseOCRSpecificFormat : string -> option Table;
  parseNumericSizeFormat : string -> option Table;
  parseRowBasedTable : string -> option Table;
  parseAlternativeFormat : string -> option Table;
  parseByPosition : string -> option Table }.

Definition emptyTable : Table := mkTable [] [].

(** [allHeaders.add(h)] on a [Set] kept as its insertion-ordered list. *)
Definition set_add (acc : list string) (h : string) : list string :=
  if existsb (String.eqb h) acc then acc else acc ++ [h].

(** [[...allHeaders]] after the loop over the tables. *)
Definition header_union (tables : list Table) : list string :=
  fold_left (fun acc t => fold_left set_add (headers t) acc) tables [].

(** [result.rows.length * Object.keys(result.rows[0] || {}).length]. *)
Definition candidateScore (t : Table) : nat :=
  length (rows t) * match rows t with [] => 0 | r :: _ => length r end.

(** The [for (const result of results)] loop: strict [>] keeps the
    earlier result on a tie. *)
Fixpoint pickBest (results : list Table) (best : Table) (bestScore : nat) : Table :=
  match results with
  | [] => best
  | r :: rest =>
      if Nat.ltb bestScore (candidateScore r) then pickBest rest r (candidateScore r)
      else pickBest rest best bestScore
  end.

(** The [results] array: each strategy's result pushed when its row
    count passes that strategy's test. *)
Definition fallbackCandidates (cg ocr num rb alt pos : Table) : list Table :=
  (if Nat.leb 2 (length (rows cg)) then [cg] else [])
  ++ (if Nat.leb 3 (length (rows ocr)) then [ocr] else [])
  ++ (if Nat.leb 2 (length (rows num)) then [num] else [])
  ++ (if Nat.ltb 0 (length (rows rb)) then [rb] else [])
  ++ (if Nat.ltb 0 (length (rows alt)) then [alt] else [])
  ++ (if Nat.ltb 0 (length (rows pos)) then [pos] else []).

Definition fallbackResult (cg ocr num rb alt pos : Table) : Table :=
  pickBest (fallbackCandidates cg ocr num rb alt pos) emptyTable 0.

Definition parseSizeChart (st : Strategies) (rawText : option string) : option SizeChart :=
  match rawText with
  | None | Some EmptyString => Some (mkSizeChart [] [] [] "" "")
  | Some raw =>
      let fixedText := fixOcrErrors st raw in
      let translatedText := translateChinese st fixedText in
      match parseMultipleTables st translatedText with
      | None => None
      | Some ((t0 :: _) as tables) =>
          Some (mkSizeChart (header_union tables) (rows t0) tables raw translatedText)
      | Some [] =>
          match parseColumnGroupedFormat st translatedText with None => None | Some cg =>
          match parseOCRSpecificFormat st translatedText with None => None | Some ocr =>
          match parseNumericSizeFormat st translatedText with None => None | Some num =>
          match parseRowBasedTable st translatedText with None => None | Some rb =>
          match parseAlternativeFormat st translatedText with None => None | Some alt =>
          match parseByPosition st translatedText with None => None | Some pos =>
            let best := fallbackResult cg ocr num rb alt pos in
            Some (mkSizeChart (headers best) (rows best)
                    (if Nat.ltb 0 (length (rows best)) then [best] else [])
                    raw translatedText)
          end end end end end end
      end
  end.

(** The fallback as the specification words it: a strategy takes part
    only with at least 2 rows (3 for the OCR-specific one). *)
Definition claim_fallbackCandidates (cg ocr num rb alt pos : Table) : list Table :=
  (if Nat.leb 2 (length (rows cg)) then [cg] else [])
  ++ (if Nat.leb 3 (length (rows ocr)) then [ocr] else [])
  ++ (if Nat.leb 2 (length (rows num)) then [num] else [])
  ++ (if Nat.leb 2 (length (rows rb)) then [rb] else [])
  ++ (if Nat.leb 2 (length (rows alt)) then [alt] else [])
  ++ (if Nat.leb 2 (length (rows pos)) then [pos] else []).

Definition claim_fallbackResult (cg ocr num rb alt pos : Table) : Table :=
  pickBest (claim_fallbackCandidates cg ocr num rb alt pos) emptyTable 0.

(** Position of the first occurrence of [h] in [l] ([length l] if none). *)
Fixpoint first_index (h : string) (l : list string) : nat :=
  match l with
  | [] => 0
  | x :: r => if String.eqb h x then 0 else S (first_index h r)
  end.

End Parser.

(* ================================================================= *)
(** ** Specification-side definitions *)

(** Notions the claims are stated with, defined independently of the
    functions they describe. *)
Module Spec.
Import Fit.

(** [a] may come before [b] under the strict order [prec]: [b] is not
    strictly before [a]. *)
Definition before {A : Type} (prec : A -> A -> Prop) (a b : A) : Prop := ~ prec b a.

(** The per-measurement results that contribute to a size's score: one
    for each ease-table key whose garment value (with the [bust] alias)
    and user value (with the [topLength]/[pantsLength] aliases) are both
    present. *)
Definition contributing (sizeData : Row) (userMeasurements : list (string * Q))
  (garmentType : string) : list MeasureFit :=
  flat_map (fun entry : string * Ease =>
              let (key, ease) := entry in
              match garmentValueOf key sizeData, userValueOf key userMeasurements with
              | Some g, Some u => [calculateMeasurementFit (adjustGarment key g u) u ease]
              | _, _ => []
              end) (easeConfigFor garmentType).

Definition Qsum (l : list Q) : Q := fold_right Qplus 0 l.

(** The arithmetic mean, [0] for no values. *)
Definition mean (l : list Q) : Q :=
  match l with
  | [] => 0
  | _ => Qsum l / inject_Z (Z.of_nat (length l))
  end.

Definition count_bigger (l : list MeasureFit) : nat :=
  length (filter (fun m => Qltb 0 (mdiff m)) l).
Definition count_smaller (l : list MeasureFit) : nat :=
  length (filter (fun m => Qltb (mdiff m) 0) l).

(** The half-measurement rule of C2, written after the claim. *)
Definition doubled_by_claim (key : string) (g u : Q) : bool :=
  ratio_below g u (7#10)
  || (String.eqb key "chest" && Qltb g 70)
  || ((String.eqb key "waist" || String.eqb key "hip") && Qltb g 50).

End Spec.

(* ================================================================= *)
(** ** Example inputs *)

Module Examples.
Import Fit JsRegex Parser.

(** A chart whose two rows share the label [M] and tie at [0.7]. *)
Definition dup_label_rows : list Row :=
  [mkRow "M" [("sleeve", 66)]; mkRow "M" [("sleeve", 58)]].

(** A chart whose small size is given as a half measurement that the
    absolute threshold does not catch (80 >= 70) but the ratio test does
    (80 / 120 < 0.7). *)
Definition half_chest_rows : list Row :=
  [mkRow "S" [("chest", 80)]; mkRow "M" [("chest", 120)]].

(** The C8 counterexample text: a keyword and a three-digit number, with
    no unit and no size token. *)
Definition chest_100 : jsstring := of_ascii "chest 100".

(** One row [{ size: 'M', shoulder: 50, chest: 60, length: 70 }], as
    [parseRowBasedTable] builds it for the one-line text [M 50 60 70]
    (no header line, so the default keys [shoulder], [chest], [length]). *)
Definition single_row_table : Table :=
  mkTable [] [[("size", JStr "M"); ("shoulder", JNum 50); ("chest", JNum 60);
               ("length", JNum 70)]].

(** The strategies' results of the C6 example, as given functions. *)
Definition single_row_strategies : Strategies :=
  mkStrategies (fun s => s) (fun s => s) (fun _ => Some [])
    (fun _ => Some emptyTable) (fun _ => Some emptyTable) (fun _ => Some emptyTable)
    (fun _ => Some single_row_table) (fun _ => Some emptyTable) (fun _ => Some emptyTable).

(** A top table and a bottom table that share the [length] header. *)
Definition top_table : Table :=
  mkTable ["length"; "chest"; "shoulder"]
    [[("size", JStr "S"); ("length", JNum 65); ("chest", JNum 100); ("shoulder", JNum 44)];
     [("size", JStr "M"); ("length", JNum 67); ("chest", JNum 104); ("shoulder", JNum 45)]].

Definition bottom_table : Table :=
  mkTable ["waist"; "hip"; "length"]
    [[("size", JStr "S"); ("waist", JNum 74); ("hip", JNum 96); ("length", JNum 98)];
     [("size", JStr "M"); ("waist", JNum 78); ("hip", JNum 100); ("length", JNum 100)]].

Definition two_table_strategies : Strategies :=
  mkStrategies (fun s => s) (fun s => s) (fun _ => Some [top_table; bottom_table])
    (fun _ => None) (fun _ => None) (fun _ => None)
    (fun _ => None) (fun _ => None) (fun _ => None).

(** The alternative format's result on [Size: 44 46]: header [Size],
    rows whose [size] is the number and which have no other key. *)
Definition size_colon_table : Table :=
  mkTable ["Size"] [[("size", JNum 44)]; [("size", JNum 46)]].

Definition size_colon_strategies : Strategies :=
  mkStrategies (fun s => s) (fun s => s) (fun _ => Some [])
    (fun _ => Some emptyTable) (fun _ => Some emptyTable) (fun _ => Some emptyTable)
    (fun _ => Some emptyTable) (fun _ => Some size_colon_table) (fun _ => Some emptyTable).

End Examples.

(* ================================================================= *)
(** ** Decimal text *)

Module DecText.





End DecText.

(* ================================================================= *)
(** ** The [/api/recommend] handler *)

Module RecommendApi.
Import Fit Recommend.

(** A destructured request field: [undefined], [null] or a value. *)
Inductive JsArg (A : Type) : Type := Undefined | Null | Value (a : A).
Arguments Undefined {A}.
Arguments Null {A}.
Arguments Value {A} a.

(** [sizeChart] as far as the handler reads it: its [rows] ([None] when
    missing or [null]). *)
Record SizeChartIn := mkSizeChartIn { inRows : option (list Row) }.

(** [req.body]; [sizeChart] and [userMeasurements] are [None] when
    missing or [null] (both falsy). *)
Record RequestBody := mkRequestBody {
  sizeChart : option SizeChartIn;
  userMeasurements : option (list (string * Q));
  garmentType : JsArg string;
  baggyMargin : JsArg BaggyMargin }.

(** [req.method] and [req.body] ([None] is an [undefined] body). *)
Record Request := mkRequest { method : string; body : option RequestBody }.

(** The [expected] sample attached to the first two [400] answers. *)
Inductive Expected : Type := ExpectSizeChart | ExpectUserMeasurements.

Inductive Body : Type :=
| NoBody                                   (* [res.status(200).end()] *)
| ErrorBody (error : string) (expected : option Expected)
| OkBody (garmentType : string) (userMeasurements : list (string * Q))
         (baggyMargin : BaggyMargin) (recs : Recs) (easeAllowances : list (string * Ease))
| FailBody.                                (* [{ success: false, error: error.message }] *)

Record Response := mkResponse { status : nat; rbody : Body }.

(** A double quote, for the messages that quote a field name. *)
Definition dq : string := String (ascii_of_nat 34) EmptyString.
Definition quoted (s : string) : string := dq ++ s ++ dq.

Definition msg_sizeChart : string :=
  "Missing or invalid " ++ quoted "sizeChart" ++ " in request body".
Definition msg_userMeasurements : string :=
  "Missing or empty " ++ quoted "userMeasurements" ++ " in request body".
Definition msg_garmentType : string :=
  "Invalid " ++ quoted "garmentType" ++ ". Must be " ++ quoted "top" ++ " or "
  ++ quoted "bottom".
Definition msg_baggyMargin : string :=
  "Invalid " ++ quoted "baggyMargin.type" ++ ". Must be " ++ quoted "size" ++ ", "
  ++ quoted "cm" ++ ", or " ++ quoted "percent".

(** The exported handler.  A thrown exception inside the [try] (an
    [undefined] body, a [null] [baggyMargin], or a throw of
    [calculateRecommendations]) gives the [500] answer.  For a validated
    [garmentType], [EASE_ALLOWANCES[garmentType]] is
    [easeConfigFor garmentType]. *)
Definition handler (req : Request) : Response :=
  if String.eqb (method req) "OPTIONS" then mkResponse 200 NoBody
  else if negb (String.eqb (method req) "POST") then
    mkResponse 405 (ErrorBody "Method not allowed" None)
  else
    match body req with
    | None => mkResponse 500 FailBody
    | Some b =>
        let gt := match garmentType b with
                  | Undefined => Some "top" | Null => None | Value s => Some s end in
        match sizeChart b with
        | None | Some (mkSizeChartIn None) | Some (mkSizeChartIn (Some [])) =>
            mkResponse 400 (ErrorBody msg_sizeChart (Some ExpectSizeChart))
        | Some (mkSizeChartIn (Some rows)) =>
            match userMeasurements b with
            | None | Some [] =>
                mkResponse 400 (ErrorBody msg_userMeasurements (Some ExpectUserMeasurements))
            | Some user =>
                match gt with
                | Some g =>
                    if String.eqb g "top" || String.eqb g "bottom" then
                      match baggyMargin b with
                      | Null => mkResponse 500 FailBody
                      | bmArg =>
                          let bm := match bmArg with
                                    | Value m => m | _ => mkBaggy "size" 1 end in
                          if String.eqb (btype bm) "size" || String.eqb (btype bm) "cm"
                             || String.eqb (btype bm) "percent" then
                            match calculateRecommendations rows user g bm with
                            | Some recs =>
                                mkResponse 200 (OkBody g user bm recs (easeConfigFor g))
                            | None => mkResponse 500 FailBody
                            end
                          else mkResponse 400 (ErrorBody msg_baggyMargin None)
                      end
                    else mkResponse 400 (ErrorBody msg_garmentType None)
                | None => mkResponse 400 (ErrorBody msg_garmentType None)
                end
            end
        end
    end.

(** The request body with [garmentType] and [baggyMargin] defaulted as
    the destructuring does when they are [undefined]. *)
Definition with_defaults (b : RequestBody) : RequestBody :=
  mkRequestBody (sizeChart b) (userMeasurements b)
    (match garmentType b with Undefined => Value "top" | x => x end)
    (match baggyMargin b with Undefined => Value (mkBaggy "size" 1) | x => x end).

End RecommendApi.

(* ================================================================= *)
(** ** [detectGarmentType] *)

Module GarmentDetect.
Import Parser.

(** [k.includes(i)]: [i] occurs in [k] at some position. *)
Fixpoint includes (k i : string) : bool :=
  String.prefix i k ||
  match k with EmptyString => false | String _ k' => includes k' i end.

(** [allKeys] as an insertion-ordered list: lowercased headers, then the
    lowercased own keys of each row. *)
Definition allKeys (sizeChart : SizeChart) : list string :=
  fold_left (fun acc (row : JsRow) =>
               fold_left (fun acc k => set_add acc (JsStr.toLowerCase (fst k))) row acc)
            (crows sizeChart)
            (fold_left (fun acc h => set_add acc (JsStr.toLowerCase h)) (cheaders sizeChart) []).

Definition bottomIndicators : list string :=
  ["waist"; "hip"; "inseam"; "thigh"; "pants"; "leg"].
Definition topIndicators : list string := ["chest"; "shoulder"; "sleeve"; "collar"].

(** [indicators.filter(i => [...allKeys].some(k => k.includes(i))).length] *)
Definition indicatorScore (indicators keys : list string) : nat :=
  length (filter (fun i => existsb (fun k => includes k i) keys) indicators).

Definition detectGarmentType (sizeChart : SizeChart) : string :=
  let keys := allKeys sizeChart in
  let bottomScore := indicatorScore bottomIndicators keys in
  let topScore := indicatorScore topIndicators keys in
  if Nat.ltb topScore bottomScore then "bottom" else "top".

(** A chart with every header and row key upper-cased. *)
Definition upcase_chart (c : SizeChart) : SizeChart :=
  mkSizeChart (map JsStr.toUpperCase (cheaders c))
    (map (map (fun kv : string * JsVal => (JsStr.toUpperCase (fst kv), snd kv))) (crows c))
    (ctables c) (crawText c) (ctranslatedText c).

End GarmentDetect.

(* ================================================================= *)
(** ** [extractSizeLabels] and the OCR fix-ups of [parseSizeChart] *)

Module RegexExec.
Import JsRegex SizeGuide.
Local Open Scope list_scope.

(** The loop of [RegExpBuiltinExec] with the match's start: the first
    position [p >= i] where the pattern matches, and the end there. *)
Fixpoint scan_at (re : RegExp) (s : jsstring) (i : nat) (fuel : nat) : option (nat * nat) :=
  match fuel with
  | O => None
  | S f =>
      match matcher (ignoreCase re) s (source re) i Some with
      | Some e => Some (i, e)
      | None => scan_at re s (S i) f
      end
  end.

(** The successive [exec] calls of a global regex from [lastIndex = 0]
    (as [String.prototype.match] and [replace] run them): a match sets
    [lastIndex] to its end, one past it when empty; the loop stops at the
    first failure.  [lastIndex] grows at every step, so [length s + 2]
    units of fuel are never exhausted. *)
Fixpoint execAll (re : RegExp) (s : jsstring) (li : nat) (fuel : nat) : list (nat * nat) :=
  match fuel with
  | O => []
  | S f =>
      if Nat.ltb (length s) li then []
      else
        match scan_at re s li (S (length s - li)) with
        | None => []
        | Some (p, e) => (p, e) :: execAll re s (if Nat.eqb e p then S e else e) f
        end
  end.

Definition substring (s : jsstring) (p e : nat) : jsstring := firstn (e - p) (skipn p s).

Definition matches (re : RegExp) (s : jsstring) : list (nat * nat) :=
  execAll re s 0 (S (S (length s))).

(** [text.match(re)] for a global [re], [null] as []. *)
Definition match_all (re : RegExp) (s : jsstring) : list jsstring :=
  map (fun pe => substring s (fst pe) (snd pe)) (matches re s).

(** [String.prototype.toUpperCase] on the code units a size label can
    hold (ASCII letters and digits). *)
Definition toUpperCaseJs (s : jsstring) : jsstring :=
  map (fun c => if ((97 <=? c) && (c <=? 122))%Z then (c - 32)%Z else c) s.

Definition jsstring_eqb (a b : jsstring) : bool :=
  if list_eq_dec Z.eq_dec a b then true else false.

(** [set.add(x)] on a [Set] kept as its insertion-ordered list. *)
Definition set_add_js (acc : list jsstring) (x : jsstring) : list jsstring :=
  if existsb (jsstring_eqb x) acc then acc else acc ++ [x].

(** [extractSizeLabels(text)]: [[...new Set(matches.map(s => s.toUpperCase()))]].
    [None] is a falsy [text]. *)
Definition extractSizeLabels (text : option jsstring) : list jsstring :=
  match text with
  | None | Some [] => []
  | Some t => fold_left set_add_js (map toUpperCaseJs (match_all sizeLabels t)) []
  end.

(** [s.replace(re, template)] for a global [re]: the text between the
    matches is kept and each matched substring [m] becomes [repl m]. *)
Fixpoint build (s : jsstring) (ms : list (nat * nat)) (next : nat)
  (repl : jsstring -> jsstring) : jsstring :=
  match ms with
  | [] => skipn next s
  | (p, e) :: rest =>
      firstn (p - next) (skipn next s) ++ repl (substring s p e) ++ build s rest e repl
  end.

Definition replace_all (re : RegExp) (repl : jsstring -> jsstring) (s : jsstring) : jsstring :=
  build s (matches re s) 0 repl.

Definition c_dollar : Z := 36%Z.
Definition c_S : Z := 83%Z.
Definition c_5 : Z := 53%Z.

(** [/\$(\d)/g] and [/\bS(\d)\b/g], replaced by ['5$1']: the capture is
    the digit after the first code unit. *)
Definition dollarDigit : RegExp :=
  mkRegExp (RSeq (RChar c_dollar) digit) false true.
Definition sDigit : RegExp :=
  mkRegExp (RSeq RWordBoundary (RSeq (RChar c_S) (RSeq digit RWordBoundary))) false true.

(** [/\b(\d)\$/g] and [/\b(\d)S\b/g], replaced by ['$15'] (group 1, then
    a literal [5], as there is no group 15): the capture is the digit
    the match starts with. *)
Definition digitDollar : RegExp :=
  mkRegExp (RSeq RWordBoundary (RSeq digit (RChar c_dollar))) false true.
Definition digitS : RegExp :=
  mkRegExp (RSeq RWordBoundary (RSeq digit (RSeq (RChar c_S) RWordBoundary))) false true.

Definition repl_5_then_group (m : jsstring) : jsstring := c_5 :: skipn 1 m.
Definition repl_group_then_5 (m : jsstring) : jsstring := firstn 1 m ++ [c_5].

(** The four chained [.replace] calls at the start of [parseSizeChart]. *)
Definition fixOcrErrors (rawText : jsstring) : jsstring :=
  replace_all digitS repl_group_then_5
    (replace_all digitDollar repl_group_then_5
       (replace_all sDigit repl_5_then_group
          (replace_all dollarDigit repl_5_then_group rawText))).

(** The strings a pattern accepts, ignoring the context tests of [\b]
    (which accept the empty string). *)
Inductive lang (ic : bool) : regex -> jsstring -> Prop :=
| L_empty : lang ic REmpty []
| L_char (c x : Z) : canonicalize ic x = canonicalize ic c -> lang ic (RChar c) [x]
| L_class (p : Z -> bool) (x : Z) : p x = true -> lang ic (RClass p) [x]
| L_seq (r1 r2 : regex) (w1 w2 : jsstring) :
    lang ic r1 w1 -> lang ic r2 w2 -> lang ic (RSeq r1 r2) (w1 ++ w2)
| L_alt_l (r1 r2 : regex) (w : jsstring) : lang ic r1 w -> lang ic (RAlt r1 r2) w
| L_alt_r (r1 r2 : regex) (w : jsstring) : lang ic r2 w -> lang ic (RAlt r1 r2) w
| L_rep_stop (r : regex) (mn : nat) : lang ic (RRep r mn (Some O)) []
| L_rep_zero (r : regex) (mx : option nat) : lang ic (RRep r O mx) []
| L_rep_more (r : regex) (mn : nat) (mx : option nat) (w1 w2 : jsstring) :
    mx <> Some O -> lang ic r w1 -> lang ic (RRep r (pred mn) (option_map pred mx)) w2 ->
    lang ic (RRep r mn mx) (w1 ++ w2)
| L_wb : lang ic RWordBoundary [].

(** The prefix of [input] read by a match from [i]. *)
Definition reads (input : jsstring) (i : nat) (w : jsstring) : Prop :=
  firstn (length w) (skipn i input) = w.

(** The repetition loop of [matcher] for a given matcher [m] of the body. *)
Definition rep_g (m : nat -> (nat -> option nat) -> option nat) (k : nat -> option nat) :
  nat -> nat -> option nat -> nat -> option nat :=
  fix rep (fuel mn : nat) (mx : option nat) (x : nat) : option nat :=
    match mx with
    | Some O => k x
    | _ =>
        match fuel with
        | O => None
        | S fuel' =>
            let d := fun y =>
              if Nat.eqb mn 0 && Nat.eqb y x then None
              else rep fuel' (pred mn) (option_map pred mx) y in
            if Nat.eqb mn 0 then
              match m x d with
              | Some e => Some e
              | None => k x
              end
            else m x d
        end
    end.

(** [ms] are matches found from [next] on, in order and without overlap. *)
Fixpoint valid_matches (re : RegExp) (s : jsstring) (next : nat) (ms : list (nat * nat)) : Prop :=
  match ms with
  | [] => True
  | (p, e) :: rest =>
      (next <= p)%nat /\ (p <= length s)%nat /\
      matcher (ignoreCase re) s (source re) p Some = Some e /\ valid_matches re s e rest
  end.

(** The letter sizes of [SIZE_PATTERNS.sizeLabels]. *)
Definition letterSizes : list string :=
  ["XXS"; "XS"; "S"; "M"; "L"; "XL"; "XXL"; "XXXL"; "3XL"; "4XL"; "5XL"].

(** A code unit kept, or a [$] or [S] turned into [5]. *)
Definition ocr_fix_rel (x y : Z) : Prop := y = x \/ (y = c_5 /\ (x = c_dollar \/ x = c_S)).

End RegexExec.

(* ================================================================= *)
(** ** Further example inputs *)

Module ExtraExamples.
Import Fit Recommend RecommendApi Parser.

(** A numeric chart in steps of 2, chest 92 to 108. *)
Definition numeric_rows : list Row :=
  [mkRow "40" [("chest", 92)]; mkRow "42" [("chest", 96)]; mkRow "44" [("chest", 100)];
   mkRow "46" [("chest", 104)]; mkRow "48" [("chest", 108)]].

Definition chest_90 : list (string * Q) := [("chest", 90)].

(** A [POST] body with the chart and the measurements, and the given
    [garmentType] and [baggyMargin] fields. *)
Definition recommend_request (gt : JsArg string) (bm : JsArg BaggyMargin) : Request :=
  mkRequest "POST" (Some (mkRequestBody (Some (mkSizeChartIn (Some numeric_rows)))
                                        (Some chest_90) gt bm)).

(** A chart with the headers [Waist], [Hip], [Length] (one row). *)
Definition waist_hip_chart : SizeChart :=
  mkSizeChart ["Waist"; "Hip"; "Length"]
    [[("size", JStr "M"); ("waist", JNum 78); ("hip", JNum 100); ("length", JNum 100)]]
    [] "" "".

Definition hip_waist_chart : SizeChart :=
  mkSizeChart ["Hip"; "Waist"; "Length"]
    [[("size", JStr "M"); ("waist", JNum 78); ("hip", JNum 100); ("length", JNum 100)]]
    [] "" "".

End ExtraExamples.

(* ================================================================= *)
(** ** Lemmas on the fit scorer *)

Module FitFacts.
Import Fit Spec.
Local Open Scope list_scope.

Lemma Qltb_true (a b : Q) : Qltb a b = true <-> a < b.
Proof.
  unfold Qltb. rewrite negb_true_iff. split.
  - intro H. apply Qnot_le_lt. intro H'. apply Qle_bool_iff in H'. congruence.
  - intro H. destruct (Qle_bool b a) eqn:E; [|reflexivity].
    apply Qle_bool_iff in E. exfalso. apply (Qlt_not_le a b); assumption.
Qed.

Lemma Qltb_false (a b : Q) : Qltb a b = false <-> b <= a.
Proof.
  unfold Qltb. rewrite negb_false_iff. apply Qle_bool_iff.
Qed.

Lemma Qle_bool_false (a b : Q) : Qle_bool a b = false <-> b < a.
Proof.
  split.
  - intro H. apply Qnot_le_lt. intro H'. apply Qle_bool_iff in H'. congruence.
  - intro H. destruct (Qle_bool a b) eqn:E; [|reflexivity].
    apply Qle_bool_iff in E. exfalso. apply (Qlt_not_le b a); assumption.
Qed.

Lemma js_max_Qmax (a b : Q) : js_max a b == Qmax a b.
Proof.
  unfold js_max. destruct (Qle_bool a b) eqn:E.
  - apply Qle_bool_iff in E. rewrite Q.max_r by exact E. reflexivity.
  - apply Qle_bool_false in E. rewrite Q.max_l by (apply Qlt_le_weak; exact E).
    reflexivity.
Qed.

Lemma sizeFitStep_details_prefix sizeData user acc e :
  exists ds, details (sizeFitStep sizeData user acc e) = details acc ++ ds.
Proof.
  destruct e as [key ease]. unfold sizeFitStep.
  destruct (garmentValueOf key sizeData), (userValueOf key user);
    try (exists []; rewrite app_nil_r; reflexivity).
  eexists. reflexivity.
Qed.

Lemma fold_details_prefix sizeData user l acc :
  exists ds, details (fold_left (sizeFitStep sizeData user) l acc) = details acc ++ ds.
Proof.
  revert acc. induction l as [|e l IH]; intro acc; simpl.
  - exists []. rewrite app_nil_r. reflexivity.
  - destruct (IH (sizeFitStep sizeData user acc e)) as [ds2 H2].
    destruct (sizeFitStep_details_prefix sizeData user acc e) as [ds1 H1].
    exists (ds1 ++ ds2). rewrite H2, H1, app_assoc. reflexivity.
Qed.

Lemma fold_cons {A B : Type} (f : A -> B -> A) x l a :
  fold_left f (x :: l) a = fold_left f l (f a x).
Proof. reflexivity. Qed.

Lemma get_app_some {A} key (l1 l2 : list (string * A)) v :
  get key l1 = Some v -> get key (l1 ++ l2) = Some v.
Proof.
  induction l1 as [|[k x] l1 IH]; simpl; [discriminate|].
  destruct (String.eqb k key); auto.
Qed.

Lemma get_app_none {A} key (l1 l2 : list (string * A)) :
  get key l1 = None -> get key (l1 ++ l2) = get key l2.
Proof.
  induction l1 as [|[k x] l1 IH]; simpl; [reflexivity|].
  destruct (String.eqb k key); [discriminate | auto].
Qed.

(** The details entry written by a step for [key], when both values
    are present. *)
Lemma sizeFitStep_details_key sizeData user acc key ease g u :
  garmentValueOf key sizeData = Some g -> userValueOf key user = Some u ->
  details (sizeFitStep sizeData user acc (key, ease)) =
  details acc ++ [(key, mkDetail (adjustGarment key g u) u
                              (calculateMeasurementFit (adjustGarment key g u) u ease))].
Proof.
  intros Hg Hu. unfold sizeFitStep. rewrite Hg, Hu. reflexivity.
Qed.

Lemma ratio_below_nonzero g u c :
  ~ u == 0 -> (ratio_below g u c = true <-> g / u < c).
Proof.
  intro Hu. unfold ratio_below.
  destruct (Qeq_bool u 0) eqn:E.
  - apply Qeq_bool_iff in E. contradiction.
  - apply Qltb_true.
Qed.

Lemma fold_sizeFit_counts sizeData user (l : list (string * Ease)) acc :
  let a := fold_left (sizeFitStep sizeData user) l acc in
  let c := flat_map (fun entry : string * Ease =>
              let (key, ease) := entry in
              match garmentValueOf key sizeData, userValueOf key user with
              | Some g, Some u => [calculateMeasurementFit (adjustGarment key g u) u ease]
              | _, _ => []
              end) l in
  (totalScore a == totalScore acc + Qsum (map mscore c)) /\
  (measurementCount a = measurementCount acc + length c)%nat /\
  (garmentBiggerCount a = garmentBiggerCount acc + count_bigger c)%nat /\
  (garmentSmallerCount a = garmentSmallerCount acc + count_smaller c)%nat.
Proof.
  revert acc. induction l as [|[key ease] l IH]; intro acc; cbn zeta.
  - cbn [fold_left flat_map map length Qsum fold_right count_bigger count_smaller filter].
    repeat split; try lia. unfold Qsum. cbn [fold_right]. ring.
  - rewrite fold_cons. destruct (IH (sizeFitStep sizeData user acc (key, ease)))
      as [Ht [Hc [Hb Hs]]].
    rewrite Ht, Hc, Hb, Hs. clear Ht Hc Hb Hs.
    unfold sizeFitStep. simpl flat_map.
    destruct (garmentValueOf key sizeData) as [g|], (userValueOf key user) as [u|];
      cbn [app map length totalScore measurementCount garmentBiggerCount
           garmentSmallerCount];
      try (repeat split; try lia; reflexivity).
    set (m := calculateMeasurementFit (adjustGarment key g u) u ease).
    unfold count_bigger, count_smaller. cbn [filter].
    repeat split.
    + unfold Qsum. cbn [fold_right map]. ring.
    + lia.
    + destruct (Qltb 0 (mdiff m)); cbn [length]; lia.
    + destruct (Qltb 0 (mdiff m)) eqn:E1; destruct (Qltb (mdiff m) 0) eqn:E2;
        cbn [length]; try lia.
      apply Qltb_true in E1. apply Qltb_true in E2. exfalso. lra.
Qed.

Lemma overallFit_compat a b t : a == b -> overallFit a t = overallFit b t.
Proof.
  intro H. unfold overallFit.
  assert (E : forall c, Qle_bool c a = Qle_bool c b).
  { intro c. destruct (Qle_bool c a) eqn:E1, (Qle_bool c b) eqn:E2; try reflexivity.
    - apply Qle_bool_iff in E1. apply Qle_bool_false in E2. exfalso. lra.
    - apply Qle_bool_false in E1. apply Qle_bool_iff in E2. exfalso. lra. }
  rewrite !E. reflexivity.
Qed.

End FitFacts.

(* ================================================================= *)
(** ** Claims about the fit scorer *)

Import Fit Spec FitFacts Examples.
Open Scope list_scope.

(** C1: for an ease triple with [min < ideal < max] and [diff = g - b],
    [calculateMeasurementFit g b ease] is [tight] with score
    [max(0, 0.5 - (min - diff) * 0.1)] below [min]; [right] with score
    [0.7 + 0.3 * (diff - min) / (ideal - min)] on [[min, ideal]]; [loose]
    with score [1.0 - 0.2 * (diff - ideal) / (max - ideal)] on
    [(ideal, max]]; and [oversized] with score
    [max(0.3, 0.8 - (diff - max) * 0.05)] above [max]. *)
Theorem calculateMeasurementFit_bands (g b : Q) (ease : Ease)
  (Hmi : emin ease < eideal ease) (Hia : eideal ease < emax ease) :
  let diff := g - b in
  let r := calculateMeasurementFit g b ease in
  mdiff r = diff /\
  (diff < emin ease ->
     mfit r = "tight" /\ mscore r == Qmax 0 ((1#2) - (emin ease - diff) * (1#10))) /\
  (emin ease <= diff <= eideal ease ->
     mfit r = "right" /\
     mscore r == (7#10) + (3#10) * (diff - emin ease) / (eideal ease - emin ease)) /\
  (eideal ease < diff <= emax ease ->
     mfit r = "loose" /\
     mscore r == 1 - (2#10) * (diff - eideal ease) / (emax ease - eideal ease)) /\
  (emax ease < diff ->
     mfit r = "oversized" /\
     mscore r == Qmax (3#10) ((8#10) - (diff - emax ease) * (5#100))).
Proof.
  intros diff r. unfold r, calculateMeasurementFit. fold diff.
  destruct (Qltb diff (emin ease)) eqn:E1.
  - apply Qltb_true in E1.
    repeat split; intros; try apply js_max_Qmax; exfalso; lra.
  - apply Qltb_false in E1.
    destruct (Qle_bool (emin ease) diff && Qle_bool diff (eideal ease)) eqn:E2.
    + apply andb_true_iff in E2. destruct E2 as [_ E2]. apply Qle_bool_iff in E2.
      repeat split; intros; try (exfalso; lra).
      cbn [mscore]. unfold Qdiv. ring.
    + assert (Hd : eideal ease < diff).
      { apply andb_false_iff in E2. destruct E2 as [E2 | E2];
          apply Qle_bool_false in E2; [exfalso; lra | exact E2]. }
      assert (Hd' : Qltb (eideal ease) diff = true) by (apply Qltb_true; exact Hd).
      rewrite Hd'. simpl.
      destruct (Qle_bool diff (emax ease)) eqn:E3.
      * apply Qle_bool_iff in E3.
        repeat split; intros; try (exfalso; lra).
        cbn [mscore]. unfold Qdiv. ring.
      * apply Qle_bool_false in E3.
        repeat split; intros; try (exfalso; lra).
        apply js_max_Qmax.
Qed.

(** Witness for C1: the chest ease [(4, 8, 16)] with a garment of [106]
    on a body of [98]. *)
Lemma calculateMeasurementFit_bands_witness :
  (4 < 8 /\ 8 < 16) /\
  mfit (calculateMeasurementFit 106 98 (mkEase 4 8 16)) = "right".
Proof.
  split.
  - split; reflexivity.
  - destruct (calculateMeasurementFit_bands 106 98 (mkEase 4 8 16))
      as [_ [_ [Hr _]]]; [reflexivity | reflexivity |].
    apply Hr. split; vm_compute; discriminate.
Defined.

(** C2: for [chest], [waist] and [hip], the garment value that
    [calculateSizeFit] scores (and records in [details]) is the garment
    value doubled exactly when [garmentValue / userValue < 0.7], or else
    [garmentValue < 70] for [chest] or [garmentValue < 50] for
    [waist]/[hip]; it is doubled once, and the fit result is computed
    from it.  (With a nonzero body value the ratio test is the rational
    comparison [g / u < 0.7].) *)
Theorem calculateSizeFit_half_measurement (sizeData : Row)
  (userMeasurements : list (string * Q)) (garmentType key : string) (ease : Ease)
  (g u : Q)
  (Hkey : In key ["chest"; "waist"; "hip"])
  (Hease : get key (easeConfigFor garmentType) = Some ease)
  (Hg : garmentValueOf key sizeData = Some g)
  (Hu : userValueOf key userMeasurements = Some u) :
  let adj := if doubled_by_claim key g u then g * 2 else g in
  get key (sdetails (calculateSizeFit sizeData userMeasurements garmentType)) =
    Some (mkDetail adj u (calculateMeasurementFit adj u ease)) /\
  (~ u == 0 -> (ratio_below g u (7#10) = true <-> g / u < 7#10)).
Proof.
  intro adj. split; [|apply ratio_below_nonzero].
  assert (Hadj : adjustGarment key g u = adj).
  { unfold adj, doubled_by_claim, adjustGarment.
    destruct Hkey as [<- | [<- | [<- | []]]]; simpl;
      destruct (ratio_below g u (7#10)), (Qltb g 70), (Qltb g 50); reflexivity. }
  unfold calculateSizeFit, sizeFitLoop. cbn [sdetails].
  unfold easeConfigFor in *.
  destruct (String.eqb garmentType "bottom").
  - destruct Hkey as [<- | [<- | [<- | []]]]; simpl in Hease; try discriminate;
      injection Hease as <-; unfold ease_bottom.
    + rewrite fold_cons.
      destruct (fold_details_prefix sizeData userMeasurements
                  [("hip", mkEase 2 6 14); ("length", mkEase (-4) 0 4); ("thigh", mkEase 2 6 12)]
                  (sizeFitStep sizeData userMeasurements acc0 ("waist", mkEase 2 4 10)))
        as [ds Hds].
      rewrite Hds, sizeFitStep_details_key with (g := g) (u := u) by assumption.
      apply get_app_some. simpl. rewrite Hadj. reflexivity.
    + rewrite fold_cons, fold_cons.
      destruct (fold_details_prefix sizeData userMeasurements
                  [("length", mkEase (-4) 0 4); ("thigh", mkEase 2 6 12)]
                  (sizeFitStep sizeData userMeasurements
                     (sizeFitStep sizeData userMeasurements acc0 ("waist", mkEase 2 4 10))
                     ("hip", mkEase 2 6 14))) as [ds Hds].
      rewrite Hds.
      rewrite sizeFitStep_details_key with (g := g) (u := u) by assumption.
      apply get_app_some.
      destruct (sizeFitStep_details_prefix sizeData userMeasurements acc0
                  ("waist", mkEase 2 4 10)) as [ds1 Hds1].
      assert (Hnw : get "hip" ds1 = None).
      { unfold sizeFitStep in Hds1. cbn [details acc0] in Hds1.
        destruct (garmentValueOf "waist" sizeData), (userValueOf "waist" userMeasurements);
          simpl in Hds1; rewrite <- Hds1; reflexivity. }
      rewrite Hds1. simpl. rewrite get_app_none by exact Hnw. simpl.
      rewrite Hadj. reflexivity.
  - destruct Hkey as [<- | [<- | [<- | []]]]; simpl in Hease; try discriminate;
      injection Hease as <-.
    unfold ease_top. rewrite fold_cons.
    destruct (fold_details_prefix sizeData userMeasurements
                [("shoulder", mkEase 0 2 6); ("sleeve", mkEase (-2) 0 4); ("length", mkEase (-2) 2 8)]
                (sizeFitStep sizeData userMeasurements acc0 ("chest", mkEase 4 8 16)))
      as [ds Hds].
    rewrite Hds, sizeFitStep_details_key with (g := g) (u := u) by assumption.
    apply get_app_some. simpl. rewrite Hadj. reflexivity.
Qed.

(** Witness for C2: a chest of [52] against a body chest of [98]
    ([52 / 98 < 0.7]) is scored as [104]. *)
Lemma calculateSizeFit_half_measurement_witness :
  get "chest" (sdetails (calculateSizeFit (mkRow "M" [("chest", 52)]) [("chest", 98)] "top")) =
  Some (mkDetail 104 98 (calculateMeasurementFit 104 98 (mkEase 4 8 16))).
Proof.
  destruct (calculateSizeFit_half_measurement (mkRow "M" [("chest", 52)]) [("chest", 98)]
              "top" "chest" (mkEase 4 8 16) 52 98) as [H _];
    [left; reflexivity | reflexivity | reflexivity | reflexivity |].
  rewrite H. vm_compute. reflexivity.
Defined.

(** C3: [calculateSizeFit]'s [avgScore] is the mean of the scores of the
    contributing measurements (ease-table keys present, after aliasing,
    on both sides; [0] when there is none); the returned [score] is it
    rounded to two decimals; and the category is [right] from [0.85];
    [loose]/[tight] on [[0.70, 0.85)]; [oversized]/[tight] on
    [[0.50, 0.70)]; [too_big]/[too_small] below [0.50], the first of each
    pair when [biggerCount >= smallerCount] over the contributing
    diffs. *)
Theorem calculateSizeFit_average (sizeData : Row) (userMeasurements : list (string * Q))
  (garmentType : string) :
  let avgScore := avgScoreOf (sizeFitLoop sizeData userMeasurements garmentType) in
  let c := contributing sizeData userMeasurements garmentType in
  let bigger := Nat.leb (count_smaller c) (count_bigger c) in
  let r := calculateSizeFit sizeData userMeasurements garmentType in
  avgScore == mean (map mscore c) /\
  sscore r = round2 avgScore /\
  (85#100 <= avgScore -> sfit r = "right") /\
  (7#10 <= avgScore < 85#100 -> sfit r = if bigger then "loose" else "tight") /\
  (5#10 <= avgScore < 7#10 -> sfit r = if bigger then "oversized" else "tight") /\
  (avgScore < 5#10 -> sfit r = if bigger then "too_big" else "too_small").
Proof.
  intros avgScore c bigger r.
  assert (Hall : (totalScore (sizeFitLoop sizeData userMeasurements garmentType)
                  == 0 + Qsum (map mscore c)) /\
                 measurementCount (sizeFitLoop sizeData userMeasurements garmentType)
                   = (0 + length c)%nat /\
                 garmentBiggerCount (sizeFitLoop sizeData userMeasurements garmentType)
                   = (0 + count_bigger c)%nat /\
                 garmentSmallerCount (sizeFitLoop sizeData userMeasurements garmentType)
                   = (0 + count_smaller c)%nat)
    by exact (fold_sizeFit_counts sizeData userMeasurements (easeConfigFor garmentType) acc0).
  destruct Hall as [Ht [Hc [Hb Hs]]]. simpl plus in Hc, Hb, Hs.
  assert (Hfit : sfit r = overallFit avgScore bigger).
  { unfold r, calculateSizeFit. cbn [sfit]. fold avgScore. unfold bigger.
    rewrite Hb, Hs. reflexivity. }
  split; [|split; [reflexivity|]].
  - unfold avgScore, avgScoreOf. rewrite Hc.
    destruct c as [|m c'] eqn:Ec; simpl map; [reflexivity|].
    unfold mean. cbn [length].
    apply Qdiv_comp.
    + rewrite Ht. apply Qplus_0_l.
    + rewrite length_map. reflexivity.
  - rewrite Hfit. unfold overallFit.
    repeat split; intros H.
    + apply Qle_bool_iff in H. rewrite H. reflexivity.
    + destruct H as [H1 H2].
      assert (E1 : Qle_bool (85#100) avgScore = false) by (apply Qle_bool_false; exact H2).
      assert (E2 : Qle_bool (7#10) avgScore = true) by (apply Qle_bool_iff; exact H1).
      rewrite E1, E2. reflexivity.
    + destruct H as [H1 H2].
      assert (E1 : Qle_bool (85#100) avgScore = false) by (apply Qle_bool_false; lra).
      assert (E2 : Qle_bool (7#10) avgScore = false) by (apply Qle_bool_false; exact H2).
      assert (E3 : Qle_bool (5#10) avgScore = true) by (apply Qle_bool_iff; exact H1).
      rewrite E1, E2, E3. reflexivity.
    + assert (E1 : Qle_bool (85#100) avgScore = false) by (apply Qle_bool_false; lra).
      assert (E2 : Qle_bool (7#10) avgScore = false) by (apply Qle_bool_false; lra).
      assert (E3 : Qle_bool (5#10) avgScore = false) by (apply Qle_bool_false; exact H).
      rewrite E1, E2, E3. reflexivity.
Qed.

(** Witness for C3: size [L] of the test chart against a chest of [98]
    scores [0.95] and is [right]. *)
Lemma calculateSizeFit_average_witness :
  sfit (calculateSizeFit
          (mkRow "L" [("chest", 108); ("shoulder", 48); ("length", 72); ("sleeve", 64)])
          [("chest", 98)] "top") = "right".
Proof.
  destruct (calculateSizeFit_average
              (mkRow "L" [("chest", 108); ("shoulder", 48); ("length", 72); ("sleeve", 64)])
              [("chest", 98)] "top") as [_ [_ [H _]]].
  apply H. vm_compute. discriminate.
Defined.

(* ================================================================= *)
(** ** The stable sort *)

Module SortFacts.
Import Recommend Spec FitFacts.

Section Insertion.
Variable A : Type.
Variable cmp : A -> A -> Q.
Variable prec : A -> A -> Prop.
Hypothesis cmp_prec : forall a b, Qltb (cmp a b) 0 = true <-> prec a b.
Hypothesis prec_irrefl : forall a, ~ prec a a.
Hypothesis prec_trans : forall a b c, prec a b -> prec b c -> prec a c.
Hypothesis prec_weak : forall a b c, prec a b -> prec a c \/ prec c b.

Lemma insert_sorted_perm x l : Permutation (insert_sorted cmp x l) (x :: l).
Proof.
  induction l as [|y l IH]; simpl; [reflexivity|].
  destruct (Qltb (cmp x y) 0); [reflexivity|].
  rewrite IH. apply perm_swap.
Qed.

Lemma js_sort_perm_acc l acc :
  Permutation (fold_left (fun acc x => insert_sorted cmp x acc) l acc) (acc ++ l).
Proof.
  revert acc. induction l as [|x l IH]; intro acc; simpl.
  - rewrite app_nil_r. reflexivity.
  - rewrite IH, insert_sorted_perm. simpl.
    rewrite <- Permutation_middle. reflexivity.
Qed.

Lemma js_sort_perm l : Permutation (js_sort cmp l) l.
Proof. apply (js_sort_perm_acc l []). Qed.

Lemma insert_sorted_sorted x l :
  StronglySorted (before prec) l -> StronglySorted (before prec) (insert_sorted cmp x l).
Proof.
  induction l as [|y l IH]; intro Hs; simpl.
  - repeat constructor.
  - apply StronglySorted_inv in Hs. destruct Hs as [Hs Hall].
    destruct (Qltb (cmp x y) 0) eqn:E.
    + apply cmp_prec in E. constructor; [constructor; assumption|].
      constructor.
      * intro H. apply (prec_irrefl x). eapply prec_trans; eassumption.
      * eapply Forall_impl; [|exact Hall]. intros z Hz H.
        apply Hz. eapply prec_trans; eassumption.
    + assert (Hn : ~ prec x y) by (intro H; apply cmp_prec in H; congruence).
      constructor; [apply IH; assumption|].
      eapply Permutation_Forall; [symmetry; apply insert_sorted_perm|].
      constructor; assumption.
Qed.

Lemma js_sort_sorted_acc l acc :
  StronglySorted (before prec) acc ->
  StronglySorted (before prec) (fold_left (fun acc x => insert_sorted cmp x acc) l acc).
Proof.
  revert acc. induction l as [|x l IH]; intros acc H; simpl; [exact H|].
  apply IH. apply insert_sorted_sorted. exact H.
Qed.

Lemma js_sort_sorted l : StronglySorted (before prec) (js_sort cmp l).
Proof. apply js_sort_sorted_acc. constructor. Qed.

Variable P : A -> bool.
Hypothesis P_tie : forall a b, P a = true -> P b = true -> ~ prec a b.

Lemma filter_all_false (l : list A) :
  (forall z, In z l -> P z = false) -> filter P l = [].
Proof.
  induction l as [|z l IH]; intro H; simpl; [reflexivity|].
  rewrite H by (left; reflexivity). apply IH. intros w Hw. apply H. right. exact Hw.
Qed.

Lemma insert_sorted_filter x l :
  StronglySorted (before prec) l ->
  filter P (insert_sorted cmp x l) = filter P l ++ (if P x then [x] else []).
Proof.
  induction l as [|y l IH]; intro Hs.
  - simpl. destruct (P x); reflexivity.
  - apply StronglySorted_inv in Hs. destruct Hs as [Hs Hall].
    cbn [insert_sorted].
    destruct (Qltb (cmp x y) 0) eqn:E.
    + apply cmp_prec in E.
      change (filter P (x :: y :: l)) with
        (if P x then x :: filter P (y :: l) else filter P (y :: l)).
      destruct (P x) eqn:Px.
      * assert (Hnone : filter P (y :: l) = []).
        { apply filter_all_false. intros z [Hy | Hz].
          - subst z. destruct (P y) eqn:Py; [|reflexivity].
            exfalso. exact (P_tie x y Px Py E).
          - destruct (P z) eqn:Pz; [|reflexivity]. exfalso.
            rewrite Forall_forall in Hall. specialize (Hall z Hz).
            destruct (prec_weak x y z E) as [H | H].
            + exact (P_tie x z Px Pz H).
            + exact (Hall H). }
        rewrite Hnone. reflexivity.
      * rewrite app_nil_r. reflexivity.
    + change (filter P (y :: insert_sorted cmp x l)) with
        (if P y then y :: filter P (insert_sorted cmp x l)
         else filter P (insert_sorted cmp x l)).
      change (filter P (y :: l)) with
        (if P y then y :: filter P l else filter P l).
      rewrite IH by exact Hs.
      destruct (P y); reflexivity.
Qed.

Lemma js_sort_filter_acc l acc :
  StronglySorted (before prec) acc ->
  filter P (fold_left (fun acc x => insert_sorted cmp x acc) l acc) = filter P acc ++ filter P l.
Proof.
  revert acc. induction l as [|x l IH]; intros acc H; simpl.
  - rewrite app_nil_r. reflexivity.
  - rewrite IH by (apply insert_sorted_sorted; exact H).
    rewrite insert_sorted_filter by exact H.
    rewrite <- app_assoc. destruct (P x); reflexivity.
Qed.

(** Stability: the elements of one tie class keep their input order. *)
Lemma js_sort_filter l : filter P (js_sort cmp l) = filter P l.
Proof. apply (js_sort_filter_acc l []). constructor. Qed.

End Insertion.

End SortFacts.

Module RankFacts.
Import Fit Recommend FitFacts SortFacts.

Lemma rankCmp_prec so a b :
  Qltb (rankCmp so a b) 0 = true <-> rank_prec so a b.
Proof.
  unfold rankCmp, rank_prec.
  destruct (Qeq_bool (rscore b) (rscore a)) eqn:E; cbn [negb].
  - apply Qeq_bool_iff in E. rewrite Qltb_true.
    change 0 with (inject_Z 0). rewrite <- Zlt_Qlt. split.
    + intro H. right. split; [lra | lia].
    + intros [H | [_ H]]; [lra | lia].
  - rewrite Qltb_true. split.
    + intro H. left. lra.
    + intros [H | [H _]]; [lra |].
      exfalso. assert (H' : Qeq_bool (rscore b) (rscore a) = true)
        by (apply Qeq_bool_iff; lra). congruence.
Qed.

Lemma rank_prec_irrefl so a : ~ rank_prec so a a.
Proof. unfold rank_prec. intros [H | [_ H]]; [lra | lia]. Qed.

Lemma rank_prec_trans so a b c :
  rank_prec so a b -> rank_prec so b c -> rank_prec so a c.
Proof.
  unfold rank_prec.
  intros [H1 | [H1 H1']] [H2 | [H2 H2']];
    [left; lra | left; lra | left; lra | right; split; [lra | lia]].
Qed.

Lemma rank_prec_weak so a b c :
  rank_prec so a b -> rank_prec so a c \/ rank_prec so c b.
Proof.
  unfold rank_prec. intros H.
  destruct (Q_dec (rscore c) (rscore a)) as [[Hca | Hac] | Heq].
  - left. left. exact Hca.
  - right. left. destruct H as [H | [H _]]; lra.
  - destruct H as [H | [H H']].
    + right. left. lra.
    + destruct (Z_lt_le_dec (JsStr.indexOf (rsize c) so) (JsStr.indexOf (rsize a) so)).
      * left. right. split; [lra | exact l].
      * right. right. split; [lra | lia].
Qed.

Lemma rank_tie so q i a b :
  (Qeq_bool (rscore a) q && Z.eqb (JsStr.indexOf (rsize a) so) i)%bool = true ->
  (Qeq_bool (rscore b) q && Z.eqb (JsStr.indexOf (rsize b) so) i)%bool = true ->
  ~ rank_prec so a b.
Proof.
  intros Ha Hb. apply andb_true_iff in Ha, Hb.
  destruct Ha as [Ha Ha'], Hb as [Hb Hb'].
  apply Qeq_bool_iff in Ha, Hb. apply Z.eqb_eq in Ha', Hb'.
  unfold rank_prec. intros [H | [_ H]]; [lra | lia].
Qed.

End RankFacts.

Import Recommend SortFacts RankFacts.

(** C4 (as stated, refuted): with two rows labelled [M] that tie at
    [0.7] (the first [loose], the second [tight]), [allSizes] keeps the
    first row first, while a tie break by the larger row index puts the
    second row first. *)
Lemma calculateRecommendations_ranking_counterexample :
  option_map allSizes
    (calculateRecommendations dup_label_rows [("sleeve", 60)] "top" (mkBaggy "size" 1)) =
    Some [mkSizeEntry "M" "loose" (70#100); mkSizeEntry "M" "tight" (70#100)] /\
  claim_allSizes dup_label_rows [("sleeve", 60)] "top" =
    [mkSizeEntry "M" "tight" (70#100); mkSizeEntry "M" "loose" (70#100)] /\
  option_map allSizes
    (calculateRecommendations dup_label_rows [("sleeve", 60)] "top" (mkBaggy "size" 1)) <>
    Some (claim_allSizes dup_label_rows [("sleeve", 60)] "top").
Proof.
  split; [vm_compute; reflexivity|].
  split; [vm_compute; reflexivity|].
  vm_compute. discriminate.
Qed.

(** C4 (amended): [allSizes] has one entry per chart row, is sorted by
    descending score, and exact score ties are ordered by the larger
    index of the first occurrence of the size label in the chart rows;
    rows that tie on both keep their chart order.  [rightFit] is the
    first entry of this ranking and is [null] exactly when the chart has
    no rows. *)
Theorem calculateRecommendations_ranking (rows : list Row)
  (userMeasurements : list (string * Q)) (garmentType : string)
  (baggyMargin : BaggyMargin) (r : Recs)
  (Hr : calculateRecommendations rows userMeasurements garmentType baggyMargin = Some r) :
  let sizeOrder := map size rows in
  let results := rowResults rows userMeasurements garmentType in
  exists ranked : list Result,
    allSizes r = map toEntry ranked /\
    rightFit r = option_map toPick (hd_error ranked) /\
    (rightFit r = None <-> rows = []) /\
    Permutation ranked results /\
    StronglySorted (fun a b => ~ rank_prec sizeOrder b a) ranked /\
    (forall (q : Q) (i : Z),
       let tie x := (Qeq_bool (rscore x) q && Z.eqb (JsStr.indexOf (rsize x) sizeOrder) i)%bool in
       filter tie ranked = filter tie results).
Proof.
  intros sizeOrder results.
  exists (rankedResults rows userMeasurements garmentType).
  assert (Hperm : Permutation (rankedResults rows userMeasurements garmentType) results)
    by apply js_sort_perm.
  unfold calculateRecommendations in Hr.
  match type of Hr with
  | match ?b with Some _ => _ | None => None end = Some r =>
      destruct b as [bf|] eqn:Eb; [|discriminate]
  end.
  injection Hr as <-. cbn [allSizes rightFit].
  split; [reflexivity|]. split; [reflexivity|].
  split; [|split; [exact Hperm|split]].
  - destruct (rankedResults rows userMeasurements garmentType) as [|x l] eqn:E;
      cbn [hd_error option_map].
    + split; [|intros _; reflexivity]. intros _.
      apply Permutation_nil in Hperm. unfold results, rowResults in Hperm.
      destruct rows; [reflexivity | discriminate].
    + split; [intro Hc; discriminate Hc|]. intro Hn. subst rows.
      unfold results, rowResults in Hperm. simpl in Hperm.
      apply Permutation_sym, Permutation_nil in Hperm. discriminate.
  - apply (js_sort_sorted Result (rankCmp sizeOrder) (rank_prec sizeOrder)).
    + apply rankCmp_prec.
    + apply rank_prec_irrefl.
    + apply rank_prec_trans.
  - intros q i.
    apply (js_sort_filter Result (rankCmp sizeOrder) (rank_prec sizeOrder)).
    + apply rankCmp_prec.
    + apply rank_prec_irrefl.
    + apply rank_prec_trans.
    + apply rank_prec_weak.
    + intros a b. apply rank_tie.
Qed.

(** Witness for C4: the two-row chart above. *)
Lemma calculateRecommendations_ranking_witness :
  exists r, calculateRecommendations dup_label_rows [("sleeve", 60)] "top" (mkBaggy "size" 1)
            = Some r /\ rightFit r <> None.
Proof.
  exists (mkRecs (Some (mkPick "M" (70#100) ["Sleeve may be very loose"]))
                      (Some (mkPick "M" (70#100) ["Sleeve may be very loose"]))
            [mkSizeEntry "M" "loose" (70#100); mkSizeEntry "M" "tight" (70#100)]).
  assert (H : calculateRecommendations dup_label_rows [("sleeve", 60)] "top" (mkBaggy "size" 1)
              = Some (mkRecs (Some (mkPick "M" (70#100) ["Sleeve may be very loose"]))
                      (Some (mkPick "M" (70#100) ["Sleeve may be very loose"]))
                        [mkSizeEntry "M" "loose" (70#100); mkSizeEntry "M" "tight" (70#100)]))
    by (vm_compute; reflexivity).
  split; [exact H|].
  destruct (calculateRecommendations_ranking _ _ _ _ _ H) as [ranked [_ [_ [Hn _]]]].
  intro Hnone. apply Hn in Hnone. discriminate.
Defined.

(** C5: on [half_chest_rows], a user chest of 120 and a [cm] margin of 40
    (target 160), the fit scorer doubles the [S] chest to 160, and the
    specification's selection picks [S] (distance 0); the code's
    [cm]/[percent] branch only applies the absolute thresholds, keeps the
    [S] chest at 80 (distance 80) and returns [M] (distance 40) as
    [baggyFit]. *)
Theorem calculateRecommendations_baggy_cm_half_measurement :
  option_map dgarment
    (get "chest" (sdetails (calculateSizeFit (mkRow "S" [("chest", 80)]) [("chest", 120)] "top")))
    = Some 160 /\
  claim_baggyBestMatch half_chest_rows [("chest", 120)] "top" (mkBaggy "cm" 40) = Some "S" /\
  baggyBestMatch half_chest_rows [("chest", 120)] "top" (mkBaggy "cm" 40) = Some "M" /\
  option_map psize
    (match calculateRecommendations half_chest_rows [("chest", 120)] "top" (mkBaggy "cm" 40) with
     | Some r => baggyFit r | None => None end) = Some "M".
Proof. vm_compute. repeat split. Qed.

(* ================================================================= *)
(** ** Lemmas on [RegExp.prototype.test] *)

Module RegexFacts.
Import JsRegex.

Lemma scan_existsb (re : RegExp) (s : jsstring) (n : nat) :
  forall i,
  match scan re s i n with Some _ => true | None => false end
  = existsb (fun j => match matcher (ignoreCase re) s (source re) j Some with
                      | Some _ => true | None => false end) (seq i n).
Proof.
  induction n as [|n IH]; intro i; [reflexivity|].
  cbn [scan seq existsb].
  destruct (matcher (ignoreCase re) s (source re) i Some); [reflexivity|].
  apply IH.
Qed.

(** From [lastIndex] 0, a global regex's [test] reports whether it
    occurs anywhere. *)
Lemma test_zero_occurs (re : RegExp) (s : jsstring) :
  global re = true -> fst (test re 0 s) = occurs re s.
Proof.
  intro Hg. unfold test, occurs. rewrite Hg.
  replace (Nat.ltb (length s) 0) with false by (destruct (length s); reflexivity).
  rewrite Nat.sub_0_r, <- scan_existsb.
  destruct (scan re s 0 (S (length s))); reflexivity.
Qed.

End RegexFacts.

Import JsRegex SizeGuide RegexFacts.

(** C8 (counterexample): [containsSizeGuide] accepts [chest 100]: the
    bare three-digit number matches [tableNumbers]; the specification's
    pre-filter rejects it, since [100] carries no unit and is not a size
    token. *)
Lemma containsSizeGuide_counterexample :
  containsSizeGuide li_zero (Some chest_100) = (true, li_zero) /\
  claim_containsSizeGuide (Some chest_100) = false.
Proof. split; vm_compute; reflexivity. Qed.

(** C8 (amended): with the shared regexes at [lastIndex] 0 (their state
    when the module loads and after every call), [containsSizeGuide text]
    is [false] for [null] and the empty string, and otherwise holds iff
    the text matches a measurement keyword AND (a unit-qualified number,
    OR a bare 2-3 digit table number, OR a size token).  Every call on a
    non-empty text leaves the four [lastIndex] values at 0, and a call on
    an empty or null text leaves them unchanged. *)
Theorem containsSizeGuide_spec (text : option jsstring) :
  fst (containsSizeGuide li_zero text)
  = match text with
    | None | Some [] => false
    | Some t => occurs measurementKeywords t
                && (occurs measurementWithUnit t || occurs tableNumbers t
                    || occurs sizeLabels t)
    end /\
  (forall st, snd (containsSizeGuide st text)
              = match text with None | Some [] => st | Some _ => li_zero end).
Proof.
  split.
  - destruct text as [[|c t]|]; [reflexivity| |reflexivity].
    unfold containsSizeGuide.
    rewrite <- (test_zero_occurs measurementKeywords), <- (test_zero_occurs measurementWithUnit),
      <- (test_zero_occurs tableNumbers), <- (test_zero_occurs sizeLabels) by reflexivity.
    cbn [li_measurementKeywords li_measurementWithUnit li_tableNumbers li_sizeLabels li_zero].
    destruct (test measurementKeywords 0 (c :: t)) as [kw ?].
    destruct (test measurementWithUnit 0 (c :: t)) as [[|] ?];
      destruct (test tableNumbers 0 (c :: t)) as [tn ?];
      destruct (test sizeLabels 0 (c :: t)) as [sl ?]; cbn [fst];
      destruct kw, tn, sl; reflexivity.
  - intro st. destruct text as [[|c t]|]; [reflexivity| |reflexivity].
    unfold containsSizeGuide.
    destruct (test measurementKeywords _ _).
    destruct (test measurementWithUnit _ _) as [[|] ?];
      [|destruct (test tableNumbers _ _) as [[|] ?]];
      destruct (test sizeLabels _ _); reflexivity.
Qed.

(* ================================================================= *)
(** ** Lemmas on the top level of [parseSizeChart] *)

Module ParserFacts.
Import Parser.
Local Open Scope list_scope.

Lemma pickBest_cases (l : list Table) :
  forall b s,
  (pickBest l b s = b /\ Forall (fun c => (candidateScore c <= s)%nat) l) \/
  (exists pre post, l = pre ++ pickBest l b s :: post /\
     (s < candidateScore (pickBest l b s))%nat /\
     Forall (fun c => (candidateScore c < candidateScore (pickBest l b s))%nat) pre /\
     Forall (fun c => (candidateScore c <= candidateScore (pickBest l b s))%nat) post).
Proof.
  induction l as [|r rest IH]; intros b s; [left; split; [reflexivity | constructor]|].
  cbn [pickBest]. destruct (Nat.ltb s (candidateScore r)) eqn:E.
  - apply Nat.ltb_lt in E. right.
    destruct (IH r (candidateScore r)) as [[H1 H2] | (pre & post & H1 & H2 & H3 & H4)].
    + rewrite H1. exists [], rest. repeat split; auto.
    + exists (r :: pre), post.
      split; [cbn [app]; f_equal; exact H1|]. split; [lia|].
      split; [constructor; [lia | exact H3] | exact H4].
  - apply Nat.ltb_ge in E.
    destruct (IH b s) as [[H1 H2] | (pre & post & H1 & H2 & H3 & H4)].
    + left. split; [exact H1 | constructor; assumption].
    + right. exists (r :: pre), post.
      split; [cbn [app]; f_equal; exact H1|]. split; [exact H2|].
      split; [constructor; [lia | exact H3] | exact H4].
Qed.

Lemma in_if_singleton {A} (b : bool) (x c : A) :
  In c (if b then [x] else []) <-> c = x /\ b = true.
Proof. destruct b; simpl; intuition congruence. Qed.

Lemma first_index_lt (a : string) (p : list string) :
  In a p -> (first_index a p < length p)%nat.
Proof.
  induction p as [|x p IH]; [contradiction|]. cbn [first_index length In].
  destruct (String.eqb a x) eqn:E; [lia|].
  intros [->|H]; [rewrite String.eqb_refl in E; discriminate | specialize (IH H); lia].
Qed.

Lemma first_index_app_in (a : string) (p q : list string) :
  In a p -> first_index a (p ++ q) = first_index a p.
Proof.
  induction p as [|x p IH]; [contradiction|]. cbn [first_index app In].
  destruct (String.eqb a x) eqn:E; [reflexivity|].
  intros [->|H]; [rewrite String.eqb_refl in E; discriminate | rewrite (IH H); reflexivity].
Qed.

Lemma first_index_app_notin (a : string) (p q : list string) :
  ~ In a p -> first_index a (p ++ q) = (length p + first_index a q)%nat.
Proof.
  induction p as [|x p IH]; [reflexivity|]. cbn [first_index app In length].
  intro Hn. destruct (String.eqb a x) eqn:E.
  - apply String.eqb_eq in E. subst. exfalso. apply Hn. left. reflexivity.
  - rewrite IH; [reflexivity | intro H; apply Hn; right; exact H].
Qed.

Lemma StronglySorted_weaken {A} (R R' : A -> A -> Prop) (l : list A) :
  (forall a b, In a l -> In b l -> R a b -> R' a b) ->
  StronglySorted R l -> StronglySorted R' l.
Proof.
  induction l as [|x l IH]; intros HR HS; [constructor|].
  apply StronglySorted_inv in HS as [HS HF]. constructor.
  - apply IH; [intros a b Ha Hb; apply HR; right; assumption | exact HS].
  - rewrite Forall_forall in *. intros y Hy.
    apply HR; [left; reflexivity | right; exact Hy | apply HF; exact Hy].
Qed.

Lemma StronglySorted_snoc {A} (R : A -> A -> Prop) (l : list A) (x : A) :
  StronglySorted R l -> Forall (fun a => R a x) l -> StronglySorted R (l ++ [x]).
Proof.
  induction l as [|y l IH]; intros HS HF; cbn [app].
  - repeat constructor.
  - apply StronglySorted_inv in HS as [HS Hy]. inversion HF; subst.
    constructor; [apply IH; assumption|].
    apply Forall_app. split; [exact Hy | constructor; [assumption | constructor]].
Qed.

Lemma set_add_fold_inv (s : list string) :
  forall p acc,
  (forall h, In h acc <-> In h p) -> NoDup acc ->
  StronglySorted (fun a b => (first_index a p < first_index b p)%nat) acc ->
  (forall h, In h (fold_left set_add s acc) <-> In h (p ++ s)) /\
  NoDup (fold_left set_add s acc) /\
  StronglySorted (fun a b => (first_index a (p ++ s) < first_index b (p ++ s))%nat)
    (fold_left set_add s acc).
Proof.
  induction s as [|x s IH]; intros p acc Hin Hnd Hss.
  - rewrite app_nil_r. cbn [fold_left]. auto.
  - cbn [fold_left]. replace (p ++ x :: s) with ((p ++ [x]) ++ s)
      by (rewrite <- app_assoc; reflexivity).
    apply IH; unfold set_add.
    + intro h. destruct (existsb (String.eqb x) acc) eqn:E.
      * apply existsb_exists in E as (y & Hy & Exy). apply String.eqb_eq in Exy. subst y.
        rewrite Hin, in_app_iff. simpl. split; [tauto|].
        intros [H|[<-|[]]]; [exact H | apply Hin; exact Hy].
      * rewrite !in_app_iff, Hin. reflexivity.
    + destruct (existsb (String.eqb x) acc) eqn:E; [exact Hnd|].
      apply NoDup_app; [exact Hnd | constructor; [intros []|constructor] |].
      intros a Ha [->|[]]. assert (Hx : existsb (String.eqb a) acc = true)
        by (apply existsb_exists; exists a; split; [exact Ha | apply String.eqb_refl]).
      congruence.
    + destruct (existsb (String.eqb x) acc) eqn:E.
      * refine (StronglySorted_weaken _ _ acc _ Hss).
        intros a b Ha Hb Hab. apply Hin in Ha, Hb.
        rewrite !first_index_app_in by assumption. exact Hab.
      * assert (Hx : ~ In x p).
        { intro Hp. apply Hin in Hp.
          assert (existsb (String.eqb x) acc = true)
            by (apply existsb_exists; exists x; split; [exact Hp | apply String.eqb_refl]).
          congruence. }
        apply StronglySorted_snoc.
        -- refine (StronglySorted_weaken _ _ acc _ Hss).
           intros a b Ha Hb Hab. apply Hin in Ha, Hb.
           rewrite !first_index_app_in by assumption. exact Hab.
        -- apply Forall_forall. intros a Ha. apply Hin in Ha.
           rewrite (first_index_app_in a) by exact Ha.
           rewrite (first_index_app_notin x) by exact Hx.
           pose proof (first_index_lt a p Ha). lia.
Qed.

Lemma header_union_concat (tables : list Table) :
  forall acc,
  fold_left (fun acc t => fold_left set_add (headers t) acc) tables acc
  = fold_left set_add (concat (map headers tables)) acc.
Proof.
  induction tables as [|t ts IH]; intro acc; [reflexivity|].
  cbn [fold_left map concat]. rewrite fold_left_app. apply IH.
Qed.

End ParserFacts.

Import Parser ParserFacts.

(** C6 (counterexample): a row-based result with a single row takes part
    in the selection and is returned (the row-based, alternative and
    positional results only need [rows.length > 0]); the specification's
    selection, which needs at least 2 rows, returns the empty result. *)
Lemma parseSizeChart_fallback_counterexample :
  fallbackResult emptyTable emptyTable emptyTable single_row_table emptyTable emptyTable
    = single_row_table /\
  length (rows single_row_table) = 1%nat /\
  claim_fallbackResult emptyTable emptyTable emptyTable single_row_table emptyTable emptyTable
    = emptyTable.
Proof. repeat split. Qed.

(** C6 (amended): when multi-table detection finds nothing, the
    column-grouped and numeric results take part with at least 2 rows,
    the OCR-specific result with at least 3, and the row-based,
    alternative and positional results with at least 1, in that priority
    order; the chart returned is the candidate of the highest
    [rowCount * keyCountOfFirstRow] score, the earliest one on a tie, or
    the empty chart when no candidate has a positive score; [tables] is
    [[best]] when it has rows and [[]] otherwise. *)
Theorem parseSizeChart_fallback (st : Strategies) (raw tr : string)
  (cg ocr num rb alt pos : Table)
  (Hraw : raw <> EmptyString)
  (Htr : translateChinese st (fixOcrErrors st raw) = tr)
  (Hmulti : parseMultipleTables st tr = Some [])
  (Hcg : parseColumnGroupedFormat st tr = Some cg)
  (Hocr : parseOCRSpecificFormat st tr = Some ocr)
  (Hnum : parseNumericSizeFormat st tr = Some num)
  (Hrb : parseRowBasedTable st tr = Some rb)
  (Halt : parseAlternativeFormat st tr = Some alt)
  (Hpos : parseByPosition st tr = Some pos) :
  let cands := fallbackCandidates cg ocr num rb alt pos in
  let best := fallbackResult cg ocr num rb alt pos in
  parseSizeChart st (Some raw)
    = Some (mkSizeChart (headers best) (rows best)
              (if Nat.ltb 0 (length (rows best)) then [best] else []) raw tr) /\
  (forall c, In c cands <->
     (c = cg /\ 2 <= length (rows cg)) \/ (c = ocr /\ 3 <= length (rows ocr)) \/
     (c = num /\ 2 <= length (rows num)) \/ (c = rb /\ 1 <= length (rows rb)) \/
     (c = alt /\ 1 <= length (rows alt)) \/ (c = pos /\ 1 <= length (rows pos)))%nat /\
  ((best = emptyTable /\ Forall (fun c => candidateScore c = 0%nat) cands) \/
   (exists pre post, cands = pre ++ best :: post /\ (0 < candidateScore best)%nat /\
      Forall (fun c => (candidateScore c < candidateScore best)%nat) pre /\
      Forall (fun c => (candidateScore c <= candidateScore best)%nat) post)).
Proof.
  intros cands best. split; [|split].
  - unfold parseSizeChart. destruct raw as [|ch r]; [congruence|]. cbv zeta.
    rewrite Htr, Hmulti, Hcg, Hocr, Hnum, Hrb, Halt, Hpos. reflexivity.
  - intro c. unfold cands, fallbackCandidates. rewrite !in_app_iff, !in_if_singleton.
    rewrite !Nat.leb_le, !Nat.ltb_lt. reflexivity.
  - unfold best, fallbackResult. fold cands.
    destruct (pickBest_cases cands emptyTable 0) as [[H1 H2] | (pre & post & H1 & H2 & H3 & H4)].
    + left. split; [exact H1|]. revert H2. apply Forall_impl. intros a Ha. lia.
    + right. exists pre, post. auto.
Qed.

(** Witness for C6. *)
Lemma parseSizeChart_fallback_witness :
  parseSizeChart single_row_strategies (Some "M 50 60 70")
    = Some (mkSizeChart [] (rows single_row_table) [single_row_table] "M 50 60 70" "M 50 60 70").
Proof.
  destruct (parseSizeChart_fallback single_row_strategies "M 50 60 70" "M 50 60 70"
              emptyTable emptyTable emptyTable single_row_table emptyTable emptyTable
              ltac:(discriminate) eq_refl eq_refl eq_refl eq_refl eq_refl eq_refl eq_refl
              eq_refl) as [H _].
  exact H.
Defined.

(** C10: when multi-table detection returns at least one table,
    [parseSizeChart] returns exactly those tables in order as [tables],
    the first table's rows as [rows], and as [headers] every header of
    every table once, in the order of first occurrence; the single-table
    strategies are not called, so the result is the same whatever they
    would return or throw. *)
Theorem parseSizeChart_multi_table (st : Strategies) (raw tr : string)
  (t0 : Table) (ts : list Table)
  (Hraw : raw <> EmptyString)
  (Htr : translateChinese st (fixOcrErrors st raw) = tr)
  (Hmulti : parseMultipleTables st tr = Some (t0 :: ts)) :
  let allHeaders := concat (map headers (t0 :: ts)) in
  parseSizeChart st (Some raw)
    = Some (mkSizeChart (header_union (t0 :: ts)) (rows t0) (t0 :: ts) raw tr) /\
  (forall h, In h (header_union (t0 :: ts)) <->
             exists t, In t (t0 :: ts) /\ In h (headers t)) /\
  NoDup (header_union (t0 :: ts)) /\
  StronglySorted (fun a b => (first_index a allHeaders < first_index b allHeaders)%nat)
    (header_union (t0 :: ts)) /\
  (forall st' : Strategies,
     fixOcrErrors st' raw = fixOcrErrors st raw ->
     translateChinese st' (fixOcrErrors st raw) = tr ->
     parseMultipleTables st' tr = Some (t0 :: ts) ->
     parseSizeChart st' (Some raw) = parseSizeChart st (Some raw)).
Proof.
  intros allHeaders.
  assert (Hrun : forall st0 : Strategies,
            fixOcrErrors st0 raw = fixOcrErrors st raw ->
            translateChinese st0 (fixOcrErrors st raw) = tr ->
            parseMultipleTables st0 tr = Some (t0 :: ts) ->
            parseSizeChart st0 (Some raw)
            = Some (mkSizeChart (header_union (t0 :: ts)) (rows t0) (t0 :: ts) raw tr)).
  { intros st0 Hf Ht Hm. unfold parseSizeChart.
    destruct raw as [|ch r]; [congruence|]. cbv zeta.
    rewrite Hf, Ht, Hm. reflexivity. }
  assert (Hinv := set_add_fold_inv allHeaders [] []
                    (fun h => iff_refl _) (NoDup_nil _) (SSorted_nil _)).
  cbn [app] in Hinv. destruct Hinv as (Hin & Hnd & Hss).
  assert (Hu : header_union (t0 :: ts) = fold_left set_add allHeaders [])
    by (unfold header_union; apply header_union_concat).
  split; [apply Hrun; [reflexivity | rewrite Htr; reflexivity | exact Hmulti]|].
  rewrite Hu.
  split; [|split; [exact Hnd | split; [exact Hss|]]].
  - intro h. rewrite Hin. unfold allHeaders. rewrite in_concat. split.
    + intros (l & Hl & Hh). apply in_map_iff in Hl as (t & <- & Ht). exists t. auto.
    + intros (t & Ht & Hh). exists (headers t). split; [apply in_map; exact Ht | exact Hh].
  - intros st' Hf Ht Hm. rewrite (Hrun st' Hf Ht Hm).
    symmetry. apply Hrun; [reflexivity | rewrite Htr; reflexivity | exact Hmulti].
Qed.

(** Witness for C10: the two tables, with fallback strategies that would
    all throw. *)
Lemma parseSizeChart_multi_table_witness :
  parseSizeChart two_table_strategies (Some "Size S M")
    = Some (mkSizeChart ["length"; "chest"; "shoulder"; "waist"; "hip"]
              (rows top_table) [top_table; bottom_table] "Size S M" "Size S M").
Proof.
  destruct (parseSizeChart_multi_table two_table_strategies "Size S M" "Size S M"
              top_table [bottom_table] ltac:(discriminate) eq_refl eq_refl) as [H _].
  rewrite H. reflexivity.
Defined.

(** For [null] and the empty string [parseSizeChart] returns the empty
    chart; when it returns and no strategy produced a row (multi-table
    detection found no table and every single-table result is empty),
    the chart has empty [headers], [rows] and [tables]. *)
Lemma parseSizeChart_empty_cases (st : Strategies) :
  parseSizeChart st None = Some (mkSizeChart [] [] [] "" "") /\
  parseSizeChart st (Some "") = Some (mkSizeChart [] [] [] "" "") /\
  (forall raw tr (cg ocr num rb alt pos : Table),
     raw <> EmptyString ->
     translateChinese st (fixOcrErrors st raw) = tr ->
     parseMultipleTables st tr = Some [] ->
     parseColumnGroupedFormat st tr = Some cg -> parseOCRSpecificFormat st tr = Some ocr ->
     parseNumericSizeFormat st tr = Some num -> parseRowBasedTable st tr = Some rb ->
     parseAlternativeFormat st tr = Some alt -> parseByPosition st tr = Some pos ->
     Forall (fun t => rows t = []) [cg; ocr; num; rb; alt; pos] ->
     parseSizeChart st (Some raw) = Some (mkSizeChart [] [] [] raw tr)).
Proof.
  split; [reflexivity|]. split; [reflexivity|].
  intros raw tr cg ocr num rb alt pos Hraw Htr Hm Hcg Hocr Hnum Hrb Halt Hpos Hall.
  unfold parseSizeChart. destruct raw as [|ch r]; [congruence|]. cbv zeta.
  rewrite Htr, Hm, Hcg, Hocr, Hnum, Hrb, Halt, Hpos.
  repeat match goal with H : Forall _ (_ :: _) |- _ => inversion H; subst; clear H end.
  unfold fallbackResult, fallbackCandidates.
  repeat match goal with H : rows ?t = [] |- _ => rewrite H end.
  reflexivity.
Qed.

(** C9: the top level of [parseSizeChart] does not check the rows it
    returns.  When multi-table detection finds nothing, the other
    strategies return [{ headers: [], rows: [] }] and the alternative
    format returns rows whose first row has a key, those rows are the
    chart's rows and its only table, whatever they hold.  On the text
    [Size: 44 46] the alternative format's colon branch takes [Size] as a
    measurement label with key [size], which overwrites each row's size
    label: its rows are [{ size: 44 }] and [{ size: 46 }]. *)
Theorem parseSizeChart_alternative_only (st : Strategies) (raw tr : string) (alt : Table)
  (Hraw : raw <> EmptyString)
  (Htr : translateChinese st (fixOcrErrors st raw) = tr)
  (Hmulti : parseMultipleTables st tr = Some [])
  (Hcg : parseColumnGroupedFormat st tr = Some emptyTable)
  (Hocr : parseOCRSpecificFormat st tr = Some emptyTable)
  (Hnum : parseNumericSizeFormat st tr = Some emptyTable)
  (Hrb : parseRowBasedTable st tr = Some emptyTable)
  (Halt : parseAlternativeFormat st tr = Some alt)
  (Hpos : parseByPosition st tr = Some emptyTable)
  (Hscore : (0 < candidateScore alt)%nat) :
  parseSizeChart st (Some raw) = Some (mkSizeChart (headers alt) (rows alt) [alt] raw tr).
Proof.
  unfold parseSizeChart. destruct raw as [|ch r]; [congruence|]. cbv zeta.
  rewrite Htr, Hmulti, Hcg, Hocr, Hnum, Hrb, Halt, Hpos.
  assert (Hne : Nat.ltb 0 (length (rows alt)) = true).
  { apply Nat.ltb_lt. unfold candidateScore in Hscore.
    destruct (rows alt); cbn [length] in *; lia. }
  assert (Hpick : fallbackResult emptyTable emptyTable emptyTable emptyTable alt emptyTable = alt).
  { unfold fallbackResult, fallbackCandidates. rewrite Hne. cbn [rows emptyTable length].
    cbn [Nat.leb Nat.ltb app pickBest].
    destruct (candidateScore alt); [lia | reflexivity]. }
  rewrite Hpick, Hne. reflexivity.
Qed.

(** Witness for C9. *)
Lemma parseSizeChart_alternative_only_witness :
  parseSizeChart size_colon_strategies (Some "Size: 44 46")
    = Some (mkSizeChart ["Size"] [[("size", JNum 44)]; [("size", JNum 46)]]
              [size_colon_table] "Size: 44 46" "Size: 44 46").
Proof.
  exact (parseSizeChart_alternative_only size_colon_strategies "Size: 44 46" "Size: 44 46"
           size_colon_table ltac:(discriminate) eq_refl eq_refl eq_refl eq_refl eq_refl eq_refl
           eq_refl eq_refl ltac:(vm_compute; lia)).
Defined.

(* ================================================================= *)
(** ** Further properties of the code *)

Open Scope Q_scope.
Open Scope string_scope.

Import Fit Spec FitFacts.

Lemma Qdiv_unit (p r : Q) : 0 < r -> 0 <= p <= r -> 0 <= p / r <= 1.
Proof.
  intros Hr [H0 H1]. split.
  - apply Qle_shift_div_l; [exact Hr|]. rewrite Qmult_0_l. exact H0.
  - apply Qle_shift_div_r; [exact Hr|]. rewrite Qmult_1_l. exact H1.
Qed.

Lemma Qdiv_pos (p r : Q) : 0 < r -> 0 < p -> 0 < p / r.
Proof.
  intros Hr Hp. apply Qlt_shift_div_l; [exact Hr|]. rewrite Qmult_0_l. exact Hp.
Qed.

Lemma Qdiv_eq_1 (p r : Q) : 0 < r -> (p / r == 1 <-> p == r).
Proof.
  intros Hr. assert (Hr0 : ~ r == 0) by (intro E; rewrite E in Hr; discriminate).
  split; intro H.
  - setoid_replace p with ((p / r) * r) by (field; exact Hr0). rewrite H. ring.
  - rewrite H. field. exact Hr0.
Qed.

Lemma calculateMeasurementFit_score_bounds (g b : Q) (ease : Ease) :
  emin ease < eideal ease -> eideal ease < emax ease ->
  0 <= mscore (calculateMeasurementFit g b ease) <= 1 /\
  (mscore (calculateMeasurementFit g b ease) == 1 <-> g - b == eideal ease).
Proof.
  intros Hmi Hia. unfold calculateMeasurementFit.
  set (diff := g - b).
  destruct (Qltb diff (emin ease)) eqn:E1.
  - apply Qltb_true in E1. cbn [mscore]. rewrite js_max_Qmax.
    assert (Hm : Qmax 0 ((1#2) - (emin ease - diff) * (1#10)) <= 1#2).
    { apply Q.max_lub; lra. }
    assert (Hm0 : 0 <= Qmax 0 ((1#2) - (emin ease - diff) * (1#10))) by apply Q.le_max_l.
    split; [split; lra|]. split; intro H; exfalso; lra.
  - apply Qltb_false in E1.
    destruct (Qle_bool (emin ease) diff && Qle_bool diff (eideal ease)) eqn:E2.
    + apply andb_true_iff in E2. destruct E2 as [_ E2]. apply Qle_bool_iff in E2.
      cbn [mscore].
      assert (Hr : 0 < eideal ease - emin ease) by lra.
      destruct (Qdiv_unit (diff - emin ease) (eideal ease - emin ease) Hr) as [Hu0 Hu1];
        [split; lra|].
      split; [split; lra|].
      destruct (Qdiv_eq_1 (diff - emin ease) (eideal ease - emin ease) Hr) as [Ha Hb].
      split; intro H.
      * assert (Hq : (diff - emin ease) / (eideal ease - emin ease) == 1) by lra.
        apply Ha in Hq. lra.
      * assert (Hq : diff - emin ease == eideal ease - emin ease) by lra.
        apply Hb in Hq. lra.
    + assert (Hd : eideal ease < diff).
      { apply andb_false_iff in E2. destruct E2 as [E2 | E2];
          apply Qle_bool_false in E2; [exfalso; lra | exact E2]. }
      assert (Hd' : Qltb (eideal ease) diff = true) by (apply Qltb_true; exact Hd).
      rewrite Hd'. cbn [andb].
      destruct (Qle_bool diff (emax ease)) eqn:E3.
      * apply Qle_bool_iff in E3. cbn [mscore].
        assert (Hr : 0 < emax ease - eideal ease) by lra.
        destruct (Qdiv_unit (diff - eideal ease) (emax ease - eideal ease) Hr) as [Hu0 Hu1];
          [split; lra|].
        assert (Hp : 0 < (diff - eideal ease) / (emax ease - eideal ease))
          by (apply Qdiv_pos; lra).
        split; [split; lra|]. split; intro H; exfalso; lra.
      * apply Qle_bool_false in E3. cbn [mscore]. rewrite js_max_Qmax.
        assert (Hm : Qmax (3#10) ((8#10) - (diff - emax ease) * (5#100)) < 1).
        { apply Q.max_lub_lt; lra. }
        assert (Hm0 : 3#10 <= Qmax (3#10) ((8#10) - (diff - emax ease) * (5#100)))
          by apply Q.le_max_l.
        split; [split; lra|]. split; intro H; exfalso; lra.
Qed.

Lemma easeConfigFor_ordered (garmentType key : string) (ease : Ease) :
  In (key, ease) (easeConfigFor garmentType) ->
  emin ease < eideal ease /\ eideal ease < emax ease.
Proof.
  unfold easeConfigFor. destruct (String.eqb garmentType "bottom");
    cbn [In ease_top ease_bottom];
    intros H; repeat destruct H as [H|H]; try contradiction;
    injection H as <- <-; cbn [emin eideal emax]; split; reflexivity.
Qed.

Lemma Qsum_unit (l : list Q) :
  (forall x, In x l -> 0 <= x <= 1) ->
  0 <= Qsum l <= inject_Z (Z.of_nat (length l)).
Proof.
  induction l as [|x l IH]; intro H.
  - unfold Qsum. cbn. split; discriminate.
  - unfold Qsum in *. cbn [fold_right length].
    destruct (H x (or_introl eq_refl)) as [H0 H1].
    destruct IH as [I0 I1]; [intros y Hy; apply H; right; exact Hy|].
    rewrite Nat2Z.inj_succ, <- Z.add_1_r, inject_Z_plus.
    assert (E1 : inject_Z 1 == 1) by reflexivity. split; lra.
Qed.

Lemma round2_unit (x : Q) : 0 <= x <= 1 -> 0 <= round2 x <= 1.
Proof.
  intros [H0 H1]. unfold round2.
  set (z := Qfloor (x * 100 + (1#2))).
  assert (Hlo : inject_Z z <= x * 100 + (1#2)) by apply Qfloor_le.
  assert (Hhi : x * 100 + (1#2) < inject_Z (z + 1)) by apply Qlt_floor.
  rewrite inject_Z_plus in Hhi. change (inject_Z 1) with 1 in Hhi.
  assert (Hz0 : (0 <= z)%Z).
  { destruct (Z.le_gt_cases 0 z) as [Hz|Hz]; [exact Hz|].
    assert (Hq : inject_Z z <= inject_Z (-1)) by (rewrite <- Zle_Qle; lia).
    change (inject_Z (-1)) with (-1) in Hq. exfalso. lra. }
  assert (Hz1 : (z <= 100)%Z).
  { destruct (Z.le_gt_cases z 100) as [Hz|Hz]; [exact Hz|].
    assert (Hq : inject_Z 101 <= inject_Z z) by (rewrite <- Zle_Qle; lia).
    change (inject_Z 101) with 101 in Hq. exfalso. lra. }
  assert (Q0 : 0 <= inject_Z z) by (change 0 with (inject_Z 0); rewrite <- Zle_Qle; exact Hz0).
  assert (Q1 : inject_Z z <= 100) by (change 100 with (inject_Z 100); rewrite <- Zle_Qle; exact Hz1).
  split.
  - apply Qle_shift_div_l; [reflexivity|]. lra.
  - apply Qle_shift_div_r; [reflexivity|]. lra.
Qed.

Lemma contributing_unit (sizeData : Row) (user : list (string * Q)) (garmentType : string) :
  forall m, In m (contributing sizeData user garmentType) -> 0 <= mscore m <= 1.
Proof.
  intros m Hm. unfold contributing in Hm. apply in_flat_map in Hm.
  destruct Hm as [[key ease] [Hin Hm]].
  destruct (easeConfigFor_ordered garmentType key ease Hin) as [Ha Hb].
  destruct (garmentValueOf key sizeData), (userValueOf key user); cbn [In] in Hm;
    try contradiction.
  destruct Hm as [<-|[]].
  apply (calculateMeasurementFit_score_bounds _ _ _ Ha Hb).
Qed.

Lemma avgScore_unit (sizeData : Row) (user : list (string * Q)) (garmentType : string) :
  0 <= avgScoreOf (sizeFitLoop sizeData user garmentType) <= 1.
Proof.
  set (c := contributing sizeData user garmentType).
  destruct (fold_sizeFit_counts sizeData user (easeConfigFor garmentType) acc0)
    as [Ht [Hc _]].
  fold (sizeFitLoop sizeData user garmentType) in Ht, Hc.
  change (flat_map _ (easeConfigFor garmentType)) with c in Ht, Hc.
  cbn [totalScore measurementCount acc0] in Ht, Hc. simpl plus in Hc.
  assert (Hs : 0 <= Qsum (map mscore c) <= inject_Z (Z.of_nat (length c))).
  { rewrite <- (length_map mscore c). apply Qsum_unit.
    intros x Hx. apply in_map_iff in Hx. destruct Hx as [m [<- Hm]].
    apply (contributing_unit sizeData user garmentType m Hm). }
  unfold avgScoreOf. rewrite Hc.
  destruct (length c) as [|n] eqn:En; [split; discriminate|].
  rewrite Ht. apply Qdiv_unit.
  - rewrite Nat2Z.inj_succ, <- Z.add_1_r, inject_Z_plus.
    assert (0 <= inject_Z (Z.of_nat n))
      by (change 0 with (inject_Z 0); rewrite <- Zle_Qle; lia).
    assert (E1 : inject_Z 1 == 1) by reflexivity. lra.
  - lra.
Qed.

Lemma calculateSizeFit_score_unit (sizeData : Row) (user : list (string * Q))
  (garmentType : string) :
  0 <= sscore (calculateSizeFit sizeData user garmentType) <= 1.
Proof.
  unfold calculateSizeFit. cbn [sscore]. apply round2_unit. apply avgScore_unit.
Qed.

Import Recommend DecText.























(** X5: for a label that upper-cases and trims to the letter size at
    position [i] of [SIZE_ORDER], [getNextSizeUp] returns the next letter
    size; for the last one, [5XL], it returns ["7"] ([parseInt("5XL") + 2]). *)
Theorem getNextSizeUp_letter_step (s : string) (i : nat) :
  nth_error SIZE_ORDER i = Some (JsStr.trim (JsStr.toUpperCase s)) ->
  getNextSizeUp s = match nth_error SIZE_ORDER (S i) with
                    | Some next => Some next
                    | None => Some "7"
                    end.
Proof.
  intro Hi. unfold getNextSizeUp. cbv zeta.
  set (norm := JsStr.trim (JsStr.toUpperCase s)) in *. clearbody norm.
  do 11 (destruct i as [|i]; [cbn in Hi; injection Hi as <-; reflexivity|]).
  cbv [SIZE_ORDER nth_error] in Hi. destruct i; discriminate Hi.
Qed.

Lemma indexOf_SIZE_ORDER (x : string) (i : nat) :
  nth_error SIZE_ORDER i = Some x -> JsStr.indexOf x SIZE_ORDER = Z.of_nat i.
Proof.
  intro Hi.
  do 11 (destruct i as [|i]; [cbn in Hi; injection Hi as <-; reflexivity|]).
  cbv [SIZE_ORDER nth_error] in Hi. destruct i; discriminate Hi.
Qed.

(** X4: for two labels that upper-case and trim to letter sizes at
    positions [i] and [j] of [SIZE_ORDER], [compareSizes] returns [i - j]. *)
Theorem compareSizes_letter_order (a b : string) (i j : nat)
  (Ha : nth_error SIZE_ORDER i = Some (JsStr.trim (JsStr.toUpperCase a)))
  (Hb : nth_error SIZE_ORDER j = Some (JsStr.trim (JsStr.toUpperCase b))) :
  compareSizes a b = (Z.of_nat i - Z.of_nat j)%Z.
Proof.
  unfold compareSizes. cbv zeta.
  rewrite (indexOf_SIZE_ORDER _ i Ha), (indexOf_SIZE_ORDER _ j Hb).
  replace ((Z.of_nat i =? -1)%Z || (Z.of_nat j =? -1)%Z) with false; [reflexivity|].
  symmetry. apply orb_false_iff. split; apply Z.eqb_neq; lia.
Qed.

(** X3: [compareSizes] is antisymmetric: swapping the two labels negates
    the result (letter, numeric and unknown labels alike). *)
Theorem compareSizes_antisymmetric (a b : string) :
  compareSizes b a = (- compareSizes a b)%Z.
Proof.
  unfold compareSizes. cbv zeta.
  rewrite orb_comm.
  destruct ((JsStr.indexOf (JsStr.trim (JsStr.toUpperCase a)) SIZE_ORDER =? -1)%Z
            || (JsStr.indexOf (JsStr.trim (JsStr.toUpperCase b)) SIZE_ORDER =? -1)%Z).
  - destruct (JsStr.parseInt (JsStr.trim (JsStr.toUpperCase a))),
             (JsStr.parseInt (JsStr.trim (JsStr.toUpperCase b))); lia.
  - lia.
Qed.

Import SortFacts.

Lemma find_result_in (p : Result -> bool) (l : list Result) (r : Result) :
  find_result p l = Some r -> In r l /\ p r = true.
Proof.
  induction l as [|x l IH]; cbn [find_result]; [discriminate|].
  destruct (p x) eqn:E.
  - intro H. injection H as <-. split; [left; reflexivity|exact E].
  - intro H. destruct (IH H) as [H1 H2]. split; [right; exact H1|exact H2].
Qed.


Lemma baggyBySize_in (rows : list Row) (results : list Result) (rf r : Result) (v : Q) :
  baggyBySize rows results rf v = Some (Some r) -> In r results.
Proof.
  unfold baggyBySize.
  destruct (find_result _ results) as [r'|] eqn:E1.
  - intro H. injection H as <-. exact (proj1 (find_result_in _ _ _ E1)).
  - destruct (findIndex_row _ _ 0) as [i|]; [|discriminate].
    destruct (Qltb _ _); [|discriminate].
    destruct (Qle_bool _ _ && Qeq_bool _ _); [|discriminate].
    destruct (nth_error _ _) as [row|]; [|discriminate].
    intro H. injection H as H. exact (proj1 (find_result_in _ _ _ H)).
Qed.

(** Every pick of [calculateRecommendations] is one of the ranked
    results, and [allSizes] lists the ranked results. *)
Lemma calculateRecommendations_picks (rows : list Row) (user : list (string * Q))
  (garmentType : string) (baggyMargin : BaggyMargin) (recs : Recs) :
  calculateRecommendations rows user garmentType baggyMargin = Some recs ->
  allSizes recs = map toEntry (rankedResults rows user garmentType) /\
  rightFit recs = option_map toPick (hd_error (rankedResults rows user garmentType)) /\
  (forall p, rightFit recs = Some p \/ baggyFit recs = Some p ->
     exists r, In r (rankedResults rows user garmentType) /\ p = toPick r).
Proof.
  unfold calculateRecommendations.
  set (results := rankedResults rows user garmentType).
  intro Hr.
  match type of Hr with
  | match ?bg with Some _ => _ | None => None end = Some _ =>
      destruct bg as [b|] eqn:Eb; [|discriminate]
  end.
  injection Hr as <-.
  assert (Hb : forall r, b = Some r -> In r results).
  { intros r ->. destruct (hd_error results) as [rf|]; [|discriminate].
    destruct (String.eqb (btype baggyMargin) "size"); [exact (baggyBySize_in _ _ _ _ _ Eb)|].
    destruct (_ || _); [|discriminate].
    destruct (baggyBestMatch _ _ _ _) as [bm|]; [|discriminate].
    destruct (String.eqb bm ""); [discriminate|].
    injection Eb as Eb. exact (proj1 (find_result_in _ _ _ Eb)). }
  cbn [allSizes rightFit baggyFit]. split; [reflexivity|]. split; [reflexivity|].
  intros p [Hp|Hp].
  - destruct results as [|x l] eqn:E; cbn in Hp; [discriminate|].
    injection Hp as <-. exists x. split; [left; reflexivity|reflexivity].
  - destruct b as [r|].
    + cbn in Hp. injection Hp as <-. exists r. split; [apply Hb; reflexivity|reflexivity].
    + destruct (Nat.ltb 1 (length results)); [|cbn in Hp; discriminate Hp].
      destruct results as [|x [|r l]]; cbn in Hp; try discriminate Hp.
      injection Hp as <-. exists r. split; [right; left; reflexivity|reflexivity].
Qed.

Lemma rankedResults_unit (rows : list Row) (user : list (string * Q)) (garmentType : string)
  (r : Result) :
  In r (rankedResults rows user garmentType) -> 0 <= rscore r <= 1.
Proof.
  intro Hin. unfold rankedResults in Hin.
  apply (Permutation_in _ (js_sort_perm _ _ _)) in Hin.
  unfold rowResults in Hin. apply in_map_iff in Hin. destruct Hin as [row [<- _]].
  unfold rscore. cbn [rfit]. apply calculateSizeFit_score_unit.
Qed.

(** X12: when [calculateRecommendations] returns, every [allSizes] score
    and the confidence of [rightFit] and of [baggyFit] lie in [0, 1]. *)
Theorem calculateRecommendations_scores_unit (rows : list Row) (user : list (string * Q))
  (garmentType : string) (baggyMargin : BaggyMargin) (recs : Recs)
  (H : calculateRecommendations rows user garmentType baggyMargin = Some recs) :
  (forall e, In e (allSizes recs) -> 0 <= escore e <= 1) /\
  (forall p, rightFit recs = Some p \/ baggyFit recs = Some p -> 0 <= pconfidence p <= 1).
Proof.
  destruct (calculateRecommendations_picks _ _ _ _ _ H) as [Ha [_ Hp]].
  split.
  - intros e He. rewrite Ha in He. apply in_map_iff in He. destruct He as [r [<- Hr]].
    exact (rankedResults_unit _ _ _ r Hr).
  - intros p Hpp. destruct (Hp p Hpp) as [r [Hr ->]].
    exact (rankedResults_unit _ _ _ r Hr).
Qed.

(** X13: when [calculateRecommendations] returns, [rightFit] and
    [baggyFit] are each listed in [allSizes] with the same size and a
    score equal to their confidence. *)
Theorem calculateRecommendations_picks_listed (rows : list Row) (user : list (string * Q))
  (garmentType : string) (baggyMargin : BaggyMargin) (recs : Recs)
  (H : calculateRecommendations rows user garmentType baggyMargin = Some recs) :
  forall p, rightFit recs = Some p \/ baggyFit recs = Some p ->
  exists e, In e (allSizes recs) /\ esize e = psize p /\ escore e = pconfidence p.
Proof.
  destruct (calculateRecommendations_picks _ _ _ _ _ H) as [Ha [_ Hp]].
  intros p Hpp. destruct (Hp p Hpp) as [r [Hr ->]].
  exists (toEntry r). rewrite Ha. split; [apply in_map; exact Hr|].
  split; reflexivity.
Qed.


Lemma loopCount_nonpos (v : Q) : v <= 0 -> loopCount v = O.
Proof. intro H. unfold loopCount. apply Qle_bool_iff in H. rewrite H. reflexivity. Qed.


Lemma find_result_self (rf : Result) (rest : list Result) :
  find_result (fun r => String.eqb (JsStr.toUpperCase (rsize r))
                          (JsStr.toUpperCase (rsize rf))) (rf :: rest) = Some rf.
Proof. cbn [find_result]. rewrite String.eqb_refl. reflexivity. Qed.

Lemma baggyBySize_nonpos (rows : list Row) (rf : Result) (rest : list Result) (v : Q) :
  v <= 0 -> baggyBySize rows (rf :: rest) rf v = Some (Some rf).
Proof.
  intro H. unfold baggyBySize. cbv zeta. rewrite (loopCount_nonpos v H). cbn [Nat.iter].
  cbn [find_result]. rewrite String.eqb_refl. reflexivity.
Qed.



(** X9: with a ["size"] margin of value [<= 0], [calculateRecommendations]
    returns and [baggyFit] is [rightFit] (the loop takes no step and
    [rightFit]'s own size is found). *)
Theorem calculateRecommendations_size_nonpositive (rows : list Row)
  (user : list (string * Q)) (garmentType : string) (v : Q) (Hv : v <= 0) :
  exists recs, calculateRecommendations rows user garmentType (mkBaggy "size" v) = Some recs
               /\ baggyFit recs = rightFit recs.
Proof.
  unfold calculateRecommendations. cbn [btype bvalue]. rewrite String.eqb_refl.
  destruct (rankedResults rows user garmentType) as [|rf rest] eqn:Er;
    [eexists; split; reflexivity|].
  cbn [hd_error]. rewrite (baggyBySize_nonpos rows rf rest v Hv).
  eexists; split; reflexivity.
Qed.

Lemma rankedResults_length (rows : list Row) (user : list (string * Q)) (garmentType : string) :
  length (rankedResults rows user garmentType) = length rows.
Proof.
  unfold rankedResults. rewrite (Permutation_length (js_sort_perm _ _ _)).
  unfold rowResults. apply length_map.
Qed.

(** X10: for a chart of at least two rows, a returned recommendation
    always has a [baggyFit] (the second-best result is the fallback). *)
Theorem calculateRecommendations_baggy_present (rows : list Row) (user : list (string * Q))
  (garmentType : string) (baggyMargin : BaggyMargin) (recs : Recs)
  (H : calculateRecommendations rows user garmentType baggyMargin = Some recs)
  (Hlen : (2 <= length rows)%nat) :
  baggyFit recs <> None.
Proof.
  unfold calculateRecommendations in H.
  match type of H with
  | match ?bg with Some _ => _ | None => None end = Some _ =>
      destruct bg as [b|]; [|discriminate]
  end.
  injection H as <-. cbn [baggyFit].
  destruct b as [r|]; [discriminate|].
  pose proof (rankedResults_length rows user garmentType) as Hl.
  replace (Nat.ltb 1 (length (rankedResults rows user garmentType))) with true
    by (symmetry; apply Nat.ltb_lt; lia).
  destruct (rankedResults rows user garmentType) as [|x [|y l]]; cbn [length] in Hl;
    [lia|lia|discriminate].
Qed.

(** X11: with a ["cm"] or ["percent"] margin and no measurement for the
    primary key ([chest] for tops, [waist] otherwise), the target is NaN,
    no row matches, and [baggyFit] is the second-ranked result ([null]
    for a one-row chart). *)
Theorem calculateRecommendations_missing_primary (rows : list Row)
  (user : list (string * Q)) (garmentType : string) (baggyMargin : BaggyMargin)
  (Ht : btype baggyMargin = "cm" \/ btype baggyMargin = "percent")
  (Hu : lookup (primaryKeyOf garmentType) user = None) :
  exists recs, calculateRecommendations rows user garmentType baggyMargin = Some recs /\
    baggyFit recs = option_map toPick (nth_error (rankedResults rows user garmentType) 1).
Proof.
  unfold calculateRecommendations.
  assert (Hb : baggyBestMatch rows user garmentType baggyMargin = None)
    by (unfold baggyBestMatch, targetOf; rewrite Hu; reflexivity).
  assert (Hs : String.eqb (btype baggyMargin) "size" = false)
    by (destruct Ht as [-> | ->]; reflexivity).
  assert (Hc : (String.eqb (btype baggyMargin) "cm" || String.eqb (btype baggyMargin) "percent")
               = true) by (destruct Ht as [-> | ->]; reflexivity).
  destruct (rankedResults rows user garmentType) as [|rf [|r2 rest]];
    cbn [hd_error]; try rewrite Hs, Hc, Hb; eexists; split; reflexivity.
Qed.

Lemma loopCount_unit (v : Q) : 0 < v -> v <= 1 -> loopCount v = 1%nat.
Proof.
  intros H0 H1. unfold loopCount.
  replace (Qle_bool v 0) with false by (symmetry; apply Qle_bool_false; exact H0).
  assert (Hc : Qceiling v = 1%Z).
  { pose proof (Qle_ceiling v) as Ha. pose proof (Qceiling_resp_le v 1 H1) as Hb.
    change (Qceiling 1) with 1%Z in Hb.
    destruct (Z.le_gt_cases (Qceiling v) 0) as [Hz|Hz]; [|lia].
    rewrite Zle_Qle in Hz. exfalso. change (inject_Z 0) with 0 in Hz. lra. }
  rewrite Hc. reflexivity.
Qed.

Lemma Qfloor_unit (v : Q) : 0 < v -> v < 1 -> Qfloor v = 0%Z.
Proof.
  intros H0 H1. pose proof (Qfloor_le v) as Ha. pose proof (Qlt_floor v) as Hb.
  rewrite inject_Z_plus in Hb. change (inject_Z 1) with 1 in Hb.
  destruct (Z.le_gt_cases (Qfloor v) (-1)) as [Hz|Hz].
  - rewrite Zle_Qle in Hz. change (inject_Z (-1)) with (-1) in Hz. exfalso. lra.
  - destruct (Z.le_gt_cases 1 (Qfloor v)) as [Hy|Hy]; [|lia].
    rewrite Zle_Qle in Hy. change (inject_Z 1) with 1 in Hy. exfalso. lra.
Qed.

(** X8: a one-row chart with a ["size"] margin strictly between 0 and 1
    whose row's next size is a different label throws: the next size is
    not in the results, and [sortedBySizeOrder[0 + value]] is [undefined]. *)
Theorem calculateRecommendations_fractional_size_throws (row : Row)
  (user : list (string * Q)) (garmentType : string) (v : Q)
  (Hv : 0 < v < 1)
  (Hnext : JsStr.toUpperCase (nextSizeStep (size row)) <> JsStr.toUpperCase (size row)) :
  calculateRecommendations [row] user garmentType (mkBaggy "size" v) = None.
Proof.
  destruct Hv as [Hv0 Hv1].
  unfold calculateRecommendations. cbn [btype bvalue]. rewrite String.eqb_refl.
  replace (rankedResults [row] user garmentType)
    with [mkResult (size row) (calculateSizeFit row user garmentType)] by reflexivity.
  cbn [hd_error]. unfold baggyBySize. cbv zeta.
  rewrite (loopCount_unit v Hv0 (Qlt_le_weak _ _ Hv1)).
  cbn [find_result rsize].
  replace (Nat.iter 1 nextSizeStep (size row)) with (nextSizeStep (size row)) by reflexivity.
  replace (String.eqb (JsStr.toUpperCase (size row)) (JsStr.toUpperCase (nextSizeStep (size row))))
    with false by (symmetry; apply String.eqb_neq; intro E; apply Hnext; symmetry; exact E).
  replace (js_sort (fun a b => inject_Z (compareSizes (size a) (size b))) [row])
    with [row] by reflexivity.
  cbn [findIndex_row]. rewrite String.eqb_refl. cbn [length].
  replace (inject_Z (Z.of_nat 0) + v) with (0 + v) by reflexivity.
  replace (Qltb (0 + v) (inject_Z (Z.of_nat 1))) with true
    by (symmetry; apply Qltb_true; change (inject_Z (Z.of_nat 1)) with 1; lra).
  replace (Qle_bool 0 (0 + v)) with true by (symmetry; apply Qle_bool_iff; lra).
  assert (Hf : Qfloor (0 + v) = 0%Z) by (apply Qfloor_unit; lra).
  rewrite Hf.
  replace (Qeq_bool (0 + v) (inject_Z 0)) with false.
  - reflexivity.
  - symmetry. apply not_true_iff_false. intro E. apply Qeq_bool_iff in E.
    change (inject_Z 0) with 0 in E. lra.
Qed.

Lemma calculateRecommendations_fractional_size_throws_witness :
  (0 < 1#2 < 1 /\
   JsStr.toUpperCase (nextSizeStep (size (mkRow "M" []))) <> JsStr.toUpperCase (size (mkRow "M" []))) /\
  calculateRecommendations [mkRow "M" []] [("chest", 98)] "top" (mkBaggy "size" (1#2)) = None.
Proof.
  assert (H1 : 0 < 1#2 < 1) by (split; reflexivity).
  assert (H2 : JsStr.toUpperCase (nextSizeStep (size (mkRow "M" [])))
               <> JsStr.toUpperCase (size (mkRow "M" []))) by (vm_compute; discriminate).
  split; [split; assumption|].
  exact (calculateRecommendations_fractional_size_throws (mkRow "M" []) [("chest", 98)] "top"
           (1#2) H1 H2).
Defined.







Import Fit Recommend RecommendApi.



(** X18: an absent [garmentType] is handled as ["top"] and an absent
    [baggyMargin] as [{ type: 'size', value: 1 }]. *)
Theorem handler_defaults (m : string) (b : RequestBody) :
  handler (mkRequest m (Some b)) = handler (mkRequest m (Some (with_defaults b))).
Proof.
  unfold handler, with_defaults; cbn [method body sizeChart userMeasurements garmentType baggyMargin].
  destruct (garmentType b); destruct (baggyMargin b); reflexivity.
Qed.


(** X17: an explicit [null] [baggyMargin] is not defaulted: reading
    [baggyMargin.type] throws and an otherwise valid request gets a 500. *)
Theorem handler_null_baggyMargin (req : Request) (b : RequestBody) (rows : list Row)
  (user : list (string * Q))
  (Hm : method req = "POST") (Hb : body req = Some b)
  (Hs : sizeChart b = Some (mkSizeChartIn (Some rows))) (Hr : rows <> [])
  (Hu : userMeasurements b = Some user) (Hu' : user <> [])
  (Hg : garmentType b = Undefined \/ garmentType b = Value "top" \/
        garmentType b = Value "bottom")
  (Hbm : baggyMargin b = Null) :
  handler req = mkResponse 500 FailBody.
Proof.
  unfold handler. rewrite Hm, Hb. cbn -[calculateRecommendations easeConfigFor].
  rewrite Hs.
  destruct rows as [|row rows']; [contradiction|].
  rewrite Hu. destruct user as [|kv user']; [contradiction|].
  destruct Hg as [Hg|[Hg|Hg]]; rewrite Hg; cbn -[calculateRecommendations easeConfigFor];
    rewrite Hbm; reflexivity.
Qed.



Import Parser GarmentDetect.

Lemma set_add_In (acc : list string) (h k : string) :
  In k (set_add acc h) <-> In k acc \/ k = h.
Proof.
  unfold set_add. destruct (existsb (String.eqb h) acc) eqn:E.
  - apply existsb_exists in E. destruct E as [x [Hx Ex]]. apply String.eqb_eq in Ex. subst x.
    split; [intros Hk; left; exact Hk|]. intros [Hk|Hk]; [exact Hk|subst; exact Hx].
  - rewrite in_app_iff. cbn. intuition.
Qed.

Lemma fold_set_add_In {A : Type} (f : A -> string) (l : list A) (acc : list string) (k : string) :
  In k (fold_left (fun acc x => set_add acc (f x)) l acc) <->
  In k acc \/ exists x, In x l /\ k = f x.
Proof.
  revert acc. induction l as [|x l IH]; intros acc; cbn.
  - split; [intros Hk; left; exact Hk|]. intros [Hk|[x [[] _]]]. exact Hk.
  - rewrite IH, set_add_In. split.
    + intros [[Hk|Hk]|[y [Hy Hk]]]; [left; exact Hk|right; exists x; auto|right; exists y; auto].
    + intros [Hk|[y [[Hy|Hy] Hk]]]; [left; left; exact Hk|subst; left; right; reflexivity|].
      right; exists y; auto.
Qed.

Lemma fold_rows_In (rows : list JsRow) (acc : list string) (k : string) :
  In k (fold_left (fun acc (row : JsRow) =>
           fold_left (fun acc kv => set_add acc (JsStr.toLowerCase (fst kv))) row acc) rows acc) <->
  In k acc \/ exists row kv, In row rows /\ In kv row /\ k = JsStr.toLowerCase (fst kv).
Proof.
  revert acc. induction rows as [|row rows IH]; intros acc; cbn.
  - split; [intros Hk; left; exact Hk|]. intros [Hk|[r [kv [[] _]]]]. exact Hk.
  - rewrite IH.
    rewrite (fold_set_add_In (fun kv : string * JsVal => JsStr.toLowerCase (fst kv))).
    split.
    + intros [[Hk|[kv [Hkv Hk]]]|[r [kv [Hr [Hkv Hk]]]]].
      * left; exact Hk.
      * right; exists row, kv; auto.
      * right; exists r, kv; auto.
    + intros [Hk|[r [kv [[Hr|Hr] [Hkv Hk]]]]].
      * left; left; exact Hk.
      * subst r; left; right; exists kv; auto.
      * right; exists r, kv; auto.
Qed.

Lemma allKeys_In (c : SizeChart) (k : string) :
  In k (allKeys c) <->
  (exists h, In h (cheaders c) /\ k = JsStr.toLowerCase h) \/
  (exists row kv, In row (crows c) /\ In kv row /\ k = JsStr.toLowerCase (fst kv)).
Proof.
  unfold allKeys. rewrite fold_rows_In.
  rewrite (fold_set_add_In JsStr.toLowerCase).
  split.
  - intros [[[]|Hk]|Hk]; [left; exact Hk|right; exact Hk].
  - intros [Hk|Hk]; [left; right; exact Hk|right; exact Hk].
Qed.

(** Scores depend only on which keys are present. *)
Lemma indicatorScore_ext (ind k1 k2 : list string) :
  (forall k, In k k1 <-> In k k2) -> indicatorScore ind k1 = indicatorScore ind k2.
Proof.
  intros Hk. unfold indicatorScore. f_equal. apply filter_ext. intros i.
  apply eq_true_iff_eq. rewrite !existsb_exists.
  split; intros [k [Hin Hi]]; exists k; split; auto; apply Hk; exact Hin.
Qed.

Lemma detectGarmentType_ext (c1 c2 : SizeChart) :
  (forall k, In k (allKeys c1) <-> In k (allKeys c2)) ->
  detectGarmentType c1 = detectGarmentType c2.
Proof.
  intros Hk. unfold detectGarmentType.
  rewrite (indicatorScore_ext bottomIndicators _ _ Hk), (indicatorScore_ext topIndicators _ _ Hk).
  reflexivity.
Qed.

Lemma lower_upper_char (c : ascii) :
  JsStr.toLowerCase (JsStr.toUpperCase (String c EmptyString)) = JsStr.toLowerCase (String c EmptyString).
Proof.
  destruct c as [[] [] [] [] [] [] [] []]; vm_compute; reflexivity.
Qed.

Lemma lower_upper (s : string) :
  JsStr.toLowerCase (JsStr.toUpperCase s) = JsStr.toLowerCase s.
Proof.
  induction s as [|c s IH]; [reflexivity|].
  pose proof (lower_upper_char c) as Hc. cbn in Hc |- *.
  injection Hc as Hc. rewrite Hc, IH. reflexivity.
Qed.

Lemma prefix_app (i k : string) : String.prefix i k = true <-> exists post, k = i ++ post.
Proof.
  revert k. induction i as [|c i IH]; intros k; cbn.
  - split; [intros _; exists k; reflexivity|destruct k; reflexivity].
  - destruct k as [|d k].
    + split; [discriminate|intros [post Hp]; discriminate].
    + change (String.prefix (String c i) (String d k))
        with (if Ascii.ascii_dec c d then String.prefix i k else false).
      destruct (Ascii.ascii_dec c d) as [->|Hcd].
      * rewrite IH. split; intros [post Hp]; exists post; [rewrite Hp; reflexivity|].
        injection Hp as Hp. exact Hp.
      * split; [discriminate|intros [post Hp]; injection Hp as Hp _; congruence].
Qed.

Lemma includes_app (k i : string) :
  includes k i = true <-> exists pre post, k = pre ++ i ++ post.
Proof.
  induction k as [|c k IH]; cbn [includes]; rewrite orb_true_iff, prefix_app.
  - split.
    + intros [[post Hp]|Hf]; [|discriminate Hf]. exists EmptyString, post. exact Hp.
    + intros [pre [post Hp]]. left. exists post.
      destruct pre; [exact Hp|discriminate].
  - rewrite IH. split.
    + intros [[post Hp]|[pre [post Hp]]].
      * exists EmptyString, post. exact Hp.
      * exists (String c pre), post. rewrite Hp. reflexivity.
    + intros [[|d pre] [post Hp]].
      * left. exists post. exact Hp.
      * right. injection Hp as <- Hp. exists pre, post. exact Hp.
Qed.


(** X19: [detectGarmentType] ignores letter case: upper-casing every
    header and row key does not change the result. *)
Theorem detectGarmentType_case_insensitive (c : SizeChart) :
  detectGarmentType (upcase_chart c) = detectGarmentType c.
Proof.
  apply detectGarmentType_ext. intros k. rewrite !allKeys_In. cbn [cheaders crows upcase_chart].
  split.
  - intros [[h [Hh Hk]]|[row [kv [Hr [Hkv Hk]]]]].
    + apply in_map_iff in Hh. destruct Hh as [h' [<- Hh']].
      left. exists h'. split; [exact Hh'|]. rewrite Hk, lower_upper. reflexivity.
    + apply in_map_iff in Hr. destruct Hr as [row' [<- Hr']].
      apply in_map_iff in Hkv. destruct Hkv as [kv' [<- Hkv']].
      right. exists row', kv'. split; [exact Hr'|]. split; [exact Hkv'|].
      rewrite Hk. cbn [fst]. apply lower_upper.
  - intros [[h [Hh Hk]]|[row [kv [Hr [Hkv Hk]]]]].
    + left. exists (JsStr.toUpperCase h). split; [apply in_map; exact Hh|].
      rewrite Hk, lower_upper. reflexivity.
    + right. exists (map (fun kv : string * JsVal => (JsStr.toUpperCase (fst kv), snd kv)) row),
        (JsStr.toUpperCase (fst kv), snd kv).
      split; [apply (in_map (map (fun kv : string * JsVal => (JsStr.toUpperCase (fst kv), snd kv)))); exact Hr|].
      split; [apply (in_map (fun kv : string * JsVal => (JsStr.toUpperCase (fst kv), snd kv))); exact Hkv|].
      cbn [fst]. rewrite Hk, lower_upper. reflexivity.
Qed.

(** X20: [detectGarmentType] does not depend on the order of the headers
    or of the rows. *)
Theorem detectGarmentType_order_independent (c1 c2 : SizeChart)
  (Hh : Permutation (cheaders c1) (cheaders c2))
  (Hr : Permutation (crows c1) (crows c2)) :
  detectGarmentType c1 = detectGarmentType c2.
Proof.
  apply detectGarmentType_ext. intros k. rewrite !allKeys_In.
  split.
  - intros [[h [Hin Hk]]|[row [kv [Hin [Hkv Hk]]]]].
    + left. exists h. split; [apply (Permutation_in _ Hh); exact Hin|exact Hk].
    + right. exists row, kv. split; [apply (Permutation_in _ Hr); exact Hin|auto].
  - intros [[h [Hin Hk]]|[row [kv [Hin [Hkv Hk]]]]].
    + left. exists h. split; [apply (Permutation_in _ (Permutation_sym Hh)); exact Hin|exact Hk].
    + right. exists row, kv.
      split; [apply (Permutation_in _ (Permutation_sym Hr)); exact Hin|auto].
Qed.

(** X21: [detectGarmentType] answers ["bottom"] only if some lowercased
    header or row key contains one of the bottom indicators ([waist],
    [hip], [inseam], [thigh], [pants], [leg]). *)
Theorem detectGarmentType_bottom_evidence (c : SizeChart)
  (H : detectGarmentType c = "bottom") :
  exists i, In i bottomIndicators /\
    ((exists h pre post, In h (cheaders c) /\ JsStr.toLowerCase h = pre ++ i ++ post) \/
     (exists row kv pre post, In row (crows c) /\ In kv row /\
        JsStr.toLowerCase (fst kv) = pre ++ i ++ post)).
Proof.
  unfold detectGarmentType in H.
  destruct (Nat.ltb _ _) eqn:Hlt; [|discriminate H].
  apply Nat.ltb_lt in Hlt.
  unfold indicatorScore in Hlt.
  destruct (filter (fun i => existsb (fun k => includes k i) (allKeys c)) bottomIndicators)
    as [|i l] eqn:Ef; [cbn in Hlt; lia|].
  assert (Hi : In i (filter (fun i => existsb (fun k => includes k i) (allKeys c)) bottomIndicators))
    by (rewrite Ef; left; reflexivity).
  apply filter_In in Hi. destruct Hi as [Hi He].
  apply existsb_exists in He. destruct He as [k [Hk Hinc]].
  apply includes_app in Hinc. destruct Hinc as [pre [post Hp]].
  exists i. split; [exact Hi|].
  apply allKeys_In in Hk. destruct Hk as [[h [Hh ->]]|[row [kv [Hr [Hkv ->]]]]].
  - left. exists h, pre, post. auto.
  - right. exists row, kv, pre, post. auto.
Qed.

Import Parser ParserFacts.

Lemma header_union_In (tables : list Table) (h : string) :
  In h (header_union tables) <-> exists t, In t tables /\ In h (headers t).
Proof.
  unfold header_union. rewrite header_union_concat.
  destruct (set_add_fold_inv (concat (map headers tables)) [] []) as [Hin _];
    [intros x; reflexivity|constructor|constructor|].
  rewrite Hin. cbn [app]. rewrite in_concat. split.
  - intros [l [Hl Hh]]. apply in_map_iff in Hl. destruct Hl as [t [<- Ht]]. exists t; auto.
  - intros [t [Ht Hh]]. exists (headers t). split; [apply in_map; exact Ht|exact Hh].
Qed.

Lemma pickBest_empty_rows (l : list Table) :
  rows (pickBest l emptyTable 0) = [] -> pickBest l emptyTable 0 = emptyTable.
Proof.
  intros Hr. destruct (pickBest_cases l emptyTable 0) as [[H _]|(pre & post & _ & Hs & _)];
    [exact H|].
  unfold candidateScore in Hs. rewrite Hr in Hs. cbn in Hs. lia.
Qed.

(** X22: every chart [parseSizeChart] returns has [rows] equal to the
    rows of its first table ([] when [tables] is empty), empty [headers]
    when [tables] is empty, every table's headers among its [headers],
    and [rawText] the input text ([''] for a missing one). *)
Theorem parseSizeChart_shape (st : Strategies) (raw : option string) (c : SizeChart)
  (H : parseSizeChart st raw = Some c) :
  crows c = match ctables c with [] => [] | t :: _ => rows t end /\
  (ctables c = [] -> cheaders c = []) /\
  (forall t h, In t (ctables c) -> In h (headers t) -> In h (cheaders c)) /\
  crawText c = match raw with Some r => r | None => EmptyString end.
Proof.
  unfold parseSizeChart in H.
  destruct raw as [[|ch r]|];
    [injection H as <-; repeat split; cbn; try intros _ _ []; reflexivity| |
     injection H as <-; repeat split; cbn; try intros _ _ []; reflexivity].
  set (raw := String ch r) in *.
  destruct (parseMultipleTables st _) as [[|t0 ts]|]; [|injection H as <-|discriminate H].
  2:{ cbn [crows ctables cheaders crawText]. repeat split.
      - discriminate.
      - intros t h Ht Hh. apply header_union_In. exists t; auto. }
  repeat match type of H with
         | match ?x with None => None | Some _ => _ end = Some _ =>
             destruct x; [|discriminate H]
         end.
  cbv zeta in H. injection H as <-. cbn [crows ctables cheaders crawText].
  set (best := fallbackResult _ _ _ _ _ _).
  destruct (Nat.ltb 0 (length (rows best))) eqn:El.
  - repeat split; [discriminate|].
    intros t' h [<-|[]] Hh. exact Hh.
  - apply Nat.ltb_ge in El. destruct (rows best) eqn:Er; [|cbn in El; lia].
    assert (Hb : best = emptyTable) by (apply pickBest_empty_rows; exact Er).
    split; [reflexivity|]. split; [intros _; rewrite Hb; reflexivity|].
    split; [intros ? ? []|reflexivity].
Qed.

Open Scope string_scope.
Import JsRegex SizeGuide RegexExec.
Local Open Scope list_scope.


Lemma reads_app (input : jsstring) (i : nat) (w1 w2 : jsstring) :
  reads input i w1 -> reads input (i + length w1) w2 -> reads input i (w1 ++ w2).
Proof.
  unfold reads. intros H1 H2. rewrite length_app.
  rewrite <- (firstn_skipn (length w1) (skipn i input)), H1.
  rewrite firstn_app_2, skipn_skipn, Nat.add_comm, H2. reflexivity.
Qed.


Lemma reads_char (input : jsstring) (i : nat) (x : Z) :
  nth_error input i = Some x -> reads input i [x].
Proof.
  unfold reads. revert i. induction input as [|y input IH]; intros [|i] H; cbn in *;
    try discriminate H.
  - injection H as ->. reflexivity.
  - apply IH. exact H.
Qed.

Lemma reads_nil (input : jsstring) (i : nat) : reads input i [].
Proof. reflexivity. Qed.

Lemma rep_g_sound (ic : bool) (input : jsstring) (r1 : regex)
  (m : nat -> (nat -> option nat) -> option nat) (k : nat -> option nat)
  (Hm : forall i k e, m i k = Some e ->
        exists w, lang ic r1 w /\ reads input i w /\ k (i + length w)%nat = Some e) :
  forall fuel mn mx x e, rep_g m k fuel mn mx x = Some e ->
  exists w, lang ic (RRep r1 mn mx) w /\ reads input x w /\ k (x + length w)%nat = Some e.
Proof.
  induction fuel as [|fuel IH]; intros mn mx x e H.
  - destruct mx as [[|n]|]; cbn in H; try discriminate H.
    exists []. split; [constructor|]. split; [apply reads_nil|]. rewrite Nat.add_0_r. exact H.
  - assert (Hstop : mx = Some O \/ mx <> Some O) by (destruct mx as [[|]|]; auto; right; discriminate).
    destruct Hstop as [->|Hmx].
    { cbn in H. exists []. split; [constructor|]. split; [apply reads_nil|].
      rewrite Nat.add_0_r. exact H. }
    assert (Hrep : rep_g m k (S fuel) mn mx x =
      (let d := fun y =>
            if Nat.eqb mn 0 && Nat.eqb y x then None
            else rep_g m k fuel (pred mn) (option_map pred mx) y in
       if Nat.eqb mn 0 then
         match m x d with Some e => Some e | None => k x end
       else m x d))
      by (destruct mx as [[|]|]; [contradiction|reflexivity|reflexivity]).
    rewrite Hrep in H. cbv zeta in H. clear Hrep.
    assert (Hd : forall e, m x (fun y => if Nat.eqb mn 0 && Nat.eqb y x then None
                  else rep_g m k fuel (pred mn) (option_map pred mx) y) = Some e ->
                 exists w, lang ic (RRep r1 mn mx) w /\ reads input x w /\
                           k (x + length w)%nat = Some e).
    { intros e' He. apply Hm in He. destruct He as [w1 [Hw1 [Hr1 Hk1]]].
      destruct (Nat.eqb mn 0 && Nat.eqb (x + length w1) x); [discriminate Hk1|].
      apply IH in Hk1. destruct Hk1 as [w2 [Hw2 [Hr2 Hk2]]].
      exists (w1 ++ w2). split; [apply L_rep_more; assumption|].
      split; [apply reads_app; assumption|].
      rewrite length_app, Nat.add_assoc. exact Hk2. }
    destruct (Nat.eqb mn 0) eqn:Emn.
    + apply Nat.eqb_eq in Emn. subst mn.
      destruct (m x _) as [e'|] eqn:Em.
      * injection H as <-. apply Hd. reflexivity.
      * exists []. split; [constructor|]. split; [apply reads_nil|].
        rewrite Nat.add_0_r. exact H.
    + apply Hd. exact H.
Qed.

Lemma matcher_sound (ic : bool) (input : jsstring) (r : regex) :
  forall i k e, matcher ic input r i k = Some e ->
  exists w, lang ic r w /\ reads input i w /\ k (i + length w)%nat = Some e.
Proof.
  induction r as [|c|p|r1 IH1 r2 IH2|r1 IH1 r2 IH2|r1 IH1 mn mx|]; intros i k e H.
  - exists []. split; [constructor|]. split; [apply reads_nil|]. rewrite Nat.add_0_r. exact H.
  - cbn in H. unfold char_at in H. destruct (nth_error input i) as [x|] eqn:Ex; [|discriminate H].
    destruct (Z.eqb _ _) eqn:Ec; [|discriminate H].
    exists [x]. split; [constructor; apply Z.eqb_eq; exact Ec|].
    split; [apply reads_char; exact Ex|]. rewrite Nat.add_1_r. exact H.
  - cbn in H. unfold char_at in H. destruct (nth_error input i) as [x|] eqn:Ex; [|discriminate H].
    destruct (p x) eqn:Ep; [|discriminate H].
    exists [x]. split; [constructor; exact Ep|].
    split; [apply reads_char; exact Ex|]. rewrite Nat.add_1_r. exact H.
  - cbn in H. apply IH1 in H. destruct H as [w1 [Hw1 [Hr1 Hk1]]].
    apply IH2 in Hk1. destruct Hk1 as [w2 [Hw2 [Hr2 Hk2]]].
    exists (w1 ++ w2). split; [constructor; assumption|].
    split; [apply reads_app; assumption|]. rewrite length_app, Nat.add_assoc. exact Hk2.
  - cbn in H. destruct (matcher ic input r1 i k) as [e'|] eqn:E1.
    + injection H as <-. apply IH1 in E1. destruct E1 as [w [Hw Hr]].
      exists w. split; [apply L_alt_l; exact Hw|exact Hr].
    + apply IH2 in H. destruct H as [w [Hw Hr]].
      exists w. split; [apply L_alt_r; exact Hw|exact Hr].
  - change (rep_g (matcher ic input r1) k (S (length input + mn)) mn mx i = Some e) in H.
    exact (rep_g_sound ic input r1 (matcher ic input r1) k IH1 _ mn mx i e H).
  - cbn in H. destruct (Bool.eqb _ _); [discriminate H|].
    exists []. split; [constructor|]. split; [apply reads_nil|]. rewrite Nat.add_0_r. exact H.
Qed.


Lemma scan_at_sound (re : RegExp) (s : jsstring) :
  forall fuel i p e, scan_at re s i fuel = Some (p, e) ->
  (i <= p)%nat /\ (p < i + fuel)%nat /\ matcher (ignoreCase re) s (source re) p Some = Some e.
Proof.
  induction fuel as [|fuel IH]; intros i p e H; [discriminate H|].
  cbn in H. destruct (matcher _ _ _ i Some) as [e'|] eqn:Em.
  - injection H as <- <-. split; [lia|]. split; [lia|exact Em].
  - apply IH in H. destruct H as [H1 [H2 H3]]. split; [lia|]. split; [lia|exact H3].
Qed.

Lemma matcher_Some_end (ic : bool) (s : jsstring) (r : regex) (p e : nat) :
  matcher ic s r p Some = Some e ->
  exists w, lang ic r w /\ reads s p w /\ e = (p + length w)%nat.
Proof.
  intros H. apply matcher_sound in H. destruct H as [w [Hw [Hr He]]].
  exists w. split; [exact Hw|]. split; [exact Hr|]. injection He as He. lia.
Qed.

Lemma valid_matches_weaken (re : RegExp) (s : jsstring) (n1 n2 : nat) (ms : list (nat * nat)) :
  (n1 <= n2)%nat -> valid_matches re s n2 ms -> valid_matches re s n1 ms.
Proof.
  destruct ms as [|[p e] rest]; cbn; [auto|]. intros Hn [H1 H2]. split; [lia|exact H2].
Qed.

Lemma execAll_valid (re : RegExp) (s : jsstring) :
  forall fuel li, valid_matches re s li (execAll re s li fuel).
Proof.
  induction fuel as [|fuel IH]; intros li; [exact I|].
  cbn [execAll]. destruct (Nat.ltb (length s) li) eqn:El; [exact I|].
  apply Nat.ltb_ge in El.
  destruct (scan_at re s li _) as [[p e]|] eqn:Es; [|exact I].
  apply scan_at_sound in Es. destruct Es as [H1 [H2 H3]].
  cbn [valid_matches]. split; [exact H1|]. split; [lia|]. split; [exact H3|].
  apply (valid_matches_weaken _ _ _ (if Nat.eqb e p then S e else e)); [|apply IH].
  destruct (Nat.eqb e p); lia.
Qed.

Lemma reads_substring (s : jsstring) (p : nat) (w : jsstring) :
  reads s p w -> substring s p (p + length w) = w.
Proof.
  unfold reads, substring. intros H. replace (p + length w - p)%nat with (length w) by lia.
  exact H.
Qed.

Lemma match_all_lang (re : RegExp) (s w : jsstring) :
  In w (match_all re s) -> lang (ignoreCase re) (source re) w /\ exists p, reads s p w.
Proof.
  unfold match_all, matches. intros H. apply in_map_iff in H. destruct H as [[p e] [<- Hin]].
  cbn [fst snd]. revert Hin.
  generalize (execAll_valid re s (S (S (length s))) 0).
  generalize (execAll re s 0 (S (S (length s)))) as ms. generalize 0%nat as li.
  intros li ms. revert li. induction ms as [|[p' e'] rest IH]; intros li Hv Hin';
    [cbn in Hin'; contradiction|].
  cbn [valid_matches] in Hv. destruct Hv as [_ [_ [Hm Hv]]]. destruct Hin' as [Heq|Hin'].
  - injection Heq as -> ->. apply matcher_Some_end in Hm. destruct Hm as [w [Hw [Hr ->]]].
    rewrite reads_substring by exact Hr. split; [exact Hw|exists p; exact Hr].
  - exact (IH e' Hv Hin').
Qed.

Lemma jsstring_eqb_eq (a b : jsstring) : jsstring_eqb a b = true <-> a = b.
Proof.
  unfold jsstring_eqb. destruct (list_eq_dec Z.eq_dec a b); split; congruence.
Qed.

Lemma fold_set_add_js (l acc : list jsstring) :
  NoDup acc ->
  NoDup (fold_left set_add_js l acc) /\
  (forall x, In x (fold_left set_add_js l acc) <-> In x acc \/ In x l).
Proof.
  revert acc. induction l as [|y l IH]; intros acc Hnd; cbn [fold_left].
  - split; [exact Hnd|]. intros x. cbn. tauto.
  - assert (Hstep : NoDup (set_add_js acc y) /\
                    forall x, In x (set_add_js acc y) <-> In x acc \/ y = x).
    { unfold set_add_js. destruct (existsb (jsstring_eqb y) acc) eqn:E.
      - apply existsb_exists in E. destruct E as [z [Hz Ez]]. apply jsstring_eqb_eq in Ez.
        subst z. split; [exact Hnd|]. intros x. split; [tauto|]. intros [H|H]; [exact H|subst; exact Hz].
      - split.
        + apply NoDup_app; [exact Hnd|constructor; [intros []|constructor]|].
          intros a Ha [->|[]]. assert (existsb (jsstring_eqb a) acc = true)
            by (apply existsb_exists; exists a; split; [exact Ha|apply jsstring_eqb_eq; reflexivity]).
          congruence.
        + intros x. rewrite in_app_iff. cbn. intuition. }
    destruct Hstep as [Hnd' Hin']. destruct (IH _ Hnd') as [H1 H2].
    split; [exact H1|]. intros x. rewrite H2, Hin'. cbn. tauto.
Qed.

Lemma lang_alt_inv (ic : bool) (a b : regex) (w : jsstring) :
  lang ic (RAlt a b) w -> lang ic a w \/ lang ic b w.
Proof. intros H. inversion H; subst; auto. Qed.

Lemma lang_seq_inv (ic : bool) (a b : regex) (w : jsstring) :
  lang ic (RSeq a b) w -> exists w1 w2, w = w1 ++ w2 /\ lang ic a w1 /\ lang ic b w2.
Proof. intros H. inversion H; subst. exists w1, w2. auto. Qed.

Lemma lang_wb_inv (ic : bool) (w : jsstring) : lang ic RWordBoundary w -> w = [].
Proof. intros H. inversion H. reflexivity. Qed.

Lemma lang_char_inv (ic : bool) (c : Z) (w : jsstring) :
  lang ic (RChar c) w -> exists x, w = [x] /\ canonicalize ic x = canonicalize ic c.
Proof. intros H. inversion H; subst. exists x. auto. Qed.

Lemma lang_class_inv (ic : bool) (p : Z -> bool) (w : jsstring) :
  lang ic (RClass p) w -> exists x, w = [x] /\ p x = true.
Proof. intros H. inversion H; subst. exists x. auto. Qed.

Lemma lang_lits (ic : bool) (l : list Z) (w : jsstring) :
  lang ic (fold_right (fun c r => RSeq (RChar c) r) REmpty l) w ->
  map (canonicalize ic) w = map (canonicalize ic) l.
Proof.
  revert w. induction l as [|c l IH]; intros w H; cbn in H.
  - inversion H. reflexivity.
  - apply lang_seq_inv in H. destruct H as [w1 [w2 [-> [H1 H2]]]].
    apply lang_char_inv in H1. destruct H1 as [x [-> Hx]].
    cbn. rewrite Hx, (IH w2 H2). reflexivity.
Qed.

Lemma lang_rep_inv (ic : bool) (r : regex) (mn : nat) (mx : option nat) (w : jsstring) :
  lang ic (RRep r mn mx) w ->
  (mx = Some O /\ w = []) \/ (mn = O /\ w = []) \/
  (mx <> Some O /\ exists w1 w2, w = w1 ++ w2 /\ lang ic r w1 /\
     lang ic (RRep r (pred mn) (option_map pred mx)) w2).
Proof.
  intros H. inversion H; subst.
  - left; auto.
  - right; left; auto.
  - right; right. split; [assumption|]. eexists _, _. eauto.
Qed.

Lemma lang_digits_1_2 (ic : bool) (w : jsstring) :
  lang ic (RRep digit 1 (Some 2%nat)) w ->
  Forall (fun c => is_digit c = true) w /\ (length w = 1 \/ length w = 2)%nat.
Proof.
  intros H. apply lang_rep_inv in H.
  destruct H as [[H _]|[[H _]|[_ [w1 [w2 [-> [H1 H2]]]]]]]; try discriminate H.
  apply lang_class_inv in H1. destruct H1 as [x [-> Hx]]. cbn [pred option_map] in H2.
  apply lang_rep_inv in H2.
  destruct H2 as [[H _]|[[_ ->]|[_ [w3 [w4 [-> [H3 H4]]]]]]]; [discriminate H| |].
  - split; [repeat constructor; exact Hx|left; reflexivity].
  - apply lang_class_inv in H3. destruct H3 as [y [-> Hy]]. cbn [pred option_map] in H4.
    apply lang_rep_inv in H4.
    destruct H4 as [[_ ->]|[[_ ->]|[H _]]]; [| |contradiction H; reflexivity].
    all: split; [repeat constructor; assumption|right; reflexivity].
Qed.


Lemma toUpperCaseJs_canon (w : jsstring) : toUpperCaseJs w = map (canonicalize true) w.
Proof. unfold toUpperCaseJs. apply map_ext. intros c. reflexivity. Qed.

Lemma toUpperCaseJs_digits (w : jsstring) :
  Forall (fun c => is_digit c = true) w -> toUpperCaseJs w = w.
Proof.
  induction 1 as [|c w Hc Hw IH]; [reflexivity|]. cbn. fold (toUpperCaseJs w). rewrite IH.
  unfold is_digit in Hc. apply andb_true_iff in Hc. destruct Hc as [H1 H2].
  apply Z.leb_le in H1, H2.
  destruct ((97 <=? c)%Z && (c <=? 122)%Z) eqn:E; [|reflexivity].
  apply andb_true_iff in E. destruct E as [E _]. apply Z.leb_le in E. lia.
Qed.

Lemma sizeLabels_lang (w : jsstring) :
  lang true (source sizeLabels) w ->
  In (toUpperCaseJs w) (map of_ascii letterSizes) \/
  (Forall (fun c => is_digit c = true) (toUpperCaseJs w) /\
   (length (toUpperCaseJs w) = 1 \/ length (toUpperCaseJs w) = 2)%nat).
Proof.
  intros H. cbn [sizeLabels source] in H.
  apply lang_seq_inv in H. destruct H as [w0 [w' [-> [H0 H]]]].
  apply lang_wb_inv in H0. subst w0.
  apply lang_seq_inv in H. destruct H as [w1 [w2 [-> [H1 H2]]]].
  apply lang_wb_inv in H2. subst w2. rewrite app_nil_r. cbn [app].
  cbn [alts fold_left] in H1.
  repeat match goal with
         | H : lang _ (RAlt _ _) _ |- _ => apply lang_alt_inv in H; destruct H as [H|H]
         end.
  12:{ right. apply lang_digits_1_2 in H1. destruct H1 as [Hd Hl].
       rewrite toUpperCaseJs_digits by exact Hd. auto. }
  all: left; unfold lit in H1; apply lang_lits in H1; rewrite toUpperCaseJs_canon, H1.
  all: vm_compute; repeat (first [left; reflexivity | right]).
Qed.

(** X23: [extractSizeLabels] returns distinct labels, each the
    upper-cased text of a piece of the input, and each a letter size of
    the pattern ([XXS] ... [5XL]) or one or two ASCII digits. *)
Theorem extractSizeLabels_vocabulary (text : option jsstring) :
  NoDup (extractSizeLabels text) /\
  forall l, In l (extractSizeLabels text) ->
    (In l (map of_ascii letterSizes) \/
     (Forall (fun c => is_digit c = true) l /\ (length l = 1 \/ length l = 2)%nat)) /\
    exists t p w, text = Some t /\ firstn (length w) (skipn p t) = w /\ l = toUpperCaseJs w.
Proof.
  destruct text as [[|c t]|]; cbn [extractSizeLabels];
    [split; [constructor|intros l []]| |split; [constructor|intros l []]].
  destruct (fold_set_add_js (map toUpperCaseJs (match_all sizeLabels (c :: t))) [] (NoDup_nil _))
    as [Hnd Hin].
  split; [exact Hnd|]. intros l Hl. apply Hin in Hl. destruct Hl as [[]|Hl].
  apply in_map_iff in Hl. destruct Hl as [w [<- Hw]].
  apply match_all_lang in Hw. destruct Hw as [Hw [p Hr]].
  split; [apply sizeLabels_lang; exact Hw|].
  exists (c :: t), p, w. split; [reflexivity|]. split; [exact Hr|reflexivity].
Qed.


Lemma Forall2_refl_rel (l : jsstring) : Forall2 ocr_fix_rel l l.
Proof. induction l; constructor; [left; reflexivity|assumption]. Qed.

Lemma Forall2_rel_trans (a b c : jsstring) :
  Forall2 ocr_fix_rel a b -> Forall2 ocr_fix_rel b c -> Forall2 ocr_fix_rel a c.
Proof.
  intros Hab. revert c. induction Hab as [|x y a b Hxy Hab IH]; intros c Hbc;
    inversion Hbc as [|y' z b' c' Hyz Hbc']; subst; constructor; [|apply IH; exact Hbc'].
  unfold ocr_fix_rel in *.
  destruct Hyz as [->|[-> Hy]]; [exact Hxy|].
  destruct Hxy as [->|[-> _]]; [right; auto|].
  right; split; [reflexivity|]. unfold c_5, c_dollar, c_S in Hy. destruct Hy as [Hy|Hy]; discriminate Hy.
Qed.

Lemma build_rel (re : RegExp) (s : jsstring) (repl : jsstring -> jsstring)
  (Hrepl : forall w, lang (ignoreCase re) (source re) w -> Forall2 ocr_fix_rel w (repl w)) :
  forall ms next, valid_matches re s next ms ->
  Forall2 ocr_fix_rel (skipn next s) (build s ms next repl).
Proof.
  induction ms as [|[p e] rest IH]; intros next Hv; [apply Forall2_refl_rel|].
  cbn [valid_matches] in Hv. destruct Hv as [Hn [Hp [Hm Hv]]].
  apply matcher_Some_end in Hm. destruct Hm as [w [Hw [Hr ->]]].
  cbn [build]. rewrite reads_substring by exact Hr.
  rewrite <- (firstn_skipn (p - next) (skipn next s)) at 1.
  rewrite skipn_skipn. replace (p - next + next)%nat with p by lia.
  rewrite <- (firstn_skipn (length w) (skipn p s)). unfold reads in Hr. rewrite Hr.
  rewrite skipn_skipn. replace (length w + p)%nat with (p + length w)%nat by lia.
  apply Forall2_app; [apply Forall2_refl_rel|].
  apply Forall2_app; [apply Hrepl; exact Hw|apply IH; exact Hv].
Qed.

Lemma replace_all_rel (re : RegExp) (repl : jsstring -> jsstring) (s : jsstring)
  (Hrepl : forall w, lang (ignoreCase re) (source re) w -> Forall2 ocr_fix_rel w (repl w)) :
  Forall2 ocr_fix_rel s (replace_all re repl s).
Proof.
  unfold replace_all, matches. exact (build_rel re s repl Hrepl _ 0 (execAll_valid re s _ 0)).
Qed.

Ltac invert_lang :=
  repeat match goal with
         | H : lang _ (RSeq _ _) _ |- _ =>
             apply lang_seq_inv in H; destruct H as [? [? [? [? ?]]]]; subst
         | H : lang _ RWordBoundary _ |- _ => apply lang_wb_inv in H; subst
         | H : lang _ (RChar _) _ |- _ =>
             apply lang_char_inv in H; destruct H as [? [? ?]]; subst
         | H : lang _ (RClass _) _ |- _ =>
             apply lang_class_inv in H; destruct H as [? [? ?]]; subst
         end.

Lemma repl_rel_all :
  (forall w, lang false (source dollarDigit) w -> Forall2 ocr_fix_rel w (repl_5_then_group w)) /\
  (forall w, lang false (source sDigit) w -> Forall2 ocr_fix_rel w (repl_5_then_group w)) /\
  (forall w, lang false (source digitDollar) w -> Forall2 ocr_fix_rel w (repl_group_then_5 w)) /\
  (forall w, lang false (source digitS) w -> Forall2 ocr_fix_rel w (repl_group_then_5 w)).
Proof.
  repeat split; intros w H; cbn [source dollarDigit sDigit digitDollar digitS] in H;
    unfold digit in H; invert_lang.
  all: cbn [canonicalize andb] in *; subst; cbn.
  all: unfold repl_5_then_group, repl_group_then_5; cbn [skipn firstn app].
  all: repeat apply Forall2_cons; try apply Forall2_nil; unfold ocr_fix_rel; auto.
Qed.

Lemma fixOcrErrors_rel (s : jsstring) : Forall2 ocr_fix_rel s (fixOcrErrors s).
Proof.
  destruct repl_rel_all as [H1 [H2 [H3 H4]]]. unfold fixOcrErrors.
  eapply Forall2_rel_trans; [|apply replace_all_rel; exact H4].
  eapply Forall2_rel_trans; [|apply replace_all_rel; exact H3].
  eapply Forall2_rel_trans; [|apply replace_all_rel; exact H2].
  apply replace_all_rel; exact H1.
Qed.

Lemma Forall2_nth_error {A B : Type} (R : A -> B -> Prop) (l1 : list A) (l2 : list B) :
  Forall2 R l1 l2 -> forall i x y, nth_error l1 i = Some x -> nth_error l2 i = Some y -> R x y.
Proof.
  induction 1 as [|a b l1 l2 Hab H IH]; intros [|i] x y H1 H2; cbn in *; try discriminate.
  - injection H1 as <-. injection H2 as <-. exact Hab.
  - exact (IH i x y H1 H2).
Qed.

(** X24: the four OCR fix-ups at the start of [parseSizeChart] keep the
    length of the text and change a character only by turning a [$] or
    an [S] into a [5]. *)
Theorem fixOcrErrors_pointwise (s : jsstring) :
  length (fixOcrErrors s) = length s /\
  forall i x y, nth_error s i = Some x -> nth_error (fixOcrErrors s) i = Some y ->
    y = x \/ (y = c_5 /\ (x = c_dollar \/ x = c_S)).
Proof.
  pose proof (fixOcrErrors_rel s) as H. split.
  - symmetry. exact (Forall2_length H).
  - exact (Forall2_nth_error _ _ _ H).
Qed.

(** X25: a text with no [$] and no [S] goes through the OCR fix-ups
    unchanged. *)
Theorem fixOcrErrors_untouched (s : jsstring)
  (Hd : ~ In c_dollar s) (Hs : ~ In c_S s) : fixOcrErrors s = s.
Proof.
  pose proof (fixOcrErrors_rel s) as H. generalize dependent (fixOcrErrors s). intros out H.
  revert Hd Hs. induction H as [|x y l1 l2 Hxy H IH]; intros Hd Hs; [reflexivity|].
  destruct Hxy as [ -> | [_ [ -> | -> ]]].
  - f_equal. apply IH; intros Hin; [apply Hd|apply Hs]; right; exact Hin.
  - exfalso. apply Hd. left. reflexivity.
  - exfalso. apply Hs. left. reflexivity.
Qed.

Lemma fixOcrErrors_untouched_witness :
  (~ In c_dollar (of_ascii "M 104") /\ ~ In c_S (of_ascii "M 104")) /\
  fixOcrErrors (of_ascii "M 104") = of_ascii "M 104".
Proof.
  split; [split; vm_compute; intros H; repeat (destruct H as [H|H]; [discriminate H|]); exact H|].
  apply fixOcrErrors_untouched; vm_compute; intros H; repeat (destruct H as [H|H]; [discriminate H|]); exact H.
Defined.

(* ================================================================= *)
(** ** Further properties: statements and witnesses *)

Import Fit FitFacts Recommend RecommendApi GarmentDetect Parser RegexExec Examples ExtraExamples.



(** X2: [calculateSizeFit] always scores in [0, 1]. *)
Theorem calculateSizeFit_score_range (sizeData : Row) (user : list (string * Q))
  (garmentType : string) :
  0 <= sscore (calculateSizeFit sizeData user garmentType) <= 1.
Proof. exact (calculateSizeFit_score_unit sizeData user garmentType). Qed.




Lemma getNextSizeUp_letter_step_witness :
  nth_error SIZE_ORDER 10 = Some (JsStr.trim (JsStr.toUpperCase " 5xl")) /\
  getNextSizeUp " 5xl" = Some "7".
Proof.
  split; [reflexivity|].
  rewrite (getNextSizeUp_letter_step " 5xl" 10 eq_refl). reflexivity.
Defined.

Lemma compareSizes_letter_order_witness :
  (nth_error SIZE_ORDER 2 = Some (JsStr.trim (JsStr.toUpperCase "s")) /\
   nth_error SIZE_ORDER 5 = Some (JsStr.trim (JsStr.toUpperCase " xl "))) /\
  compareSizes "s" " xl " = (-3)%Z.
Proof.
  split; [split; reflexivity|].
  rewrite (compareSizes_letter_order "s" " xl " 2 5 eq_refl eq_refl). reflexivity.
Defined.

Lemma calculateRecommendations_size_nonpositive_witness :
  0 <= 0 /\
  exists recs, calculateRecommendations numeric_rows chest_90 "top" (mkBaggy "size" 0) = Some recs
               /\ baggyFit recs = rightFit recs.
Proof.
  split; [lra|]. apply calculateRecommendations_size_nonpositive. lra.
Defined.

Lemma calculateRecommendations_baggy_present_witness :
  exists recs, calculateRecommendations numeric_rows chest_90 "top" (mkBaggy "cm" 4) = Some recs
    /\ (2 <= length numeric_rows)%nat /\ baggyFit recs <> None.
Proof.
  destruct (calculateRecommendations numeric_rows chest_90 "top" (mkBaggy "cm" 4))
    as [recs|] eqn:E; [|vm_compute in E; discriminate E].
  exists recs. split; [reflexivity|]. split; [cbn; lia|].
  exact (calculateRecommendations_baggy_present numeric_rows chest_90 "top" _ recs E
           ltac:(cbn; lia)).
Defined.

Lemma calculateRecommendations_missing_primary_witness :
  (btype (mkBaggy "cm" 4) = "cm" \/ btype (mkBaggy "cm" 4) = "percent") /\
  lookup (primaryKeyOf "top") [("waist", 80)] = None /\
  exists recs, calculateRecommendations numeric_rows [("waist", 80)] "top" (mkBaggy "cm" 4) = Some recs
    /\ baggyFit recs = option_map toPick (nth_error (rankedResults numeric_rows [("waist", 80)] "top") 1).
Proof.
  split; [left; reflexivity|]. split; [reflexivity|].
  apply calculateRecommendations_missing_primary; [left; reflexivity|reflexivity].
Defined.

Lemma calculateRecommendations_scores_unit_witness :
  exists recs, calculateRecommendations numeric_rows chest_90 "top" (mkBaggy "size" 1) = Some recs
    /\ (forall e, In e (allSizes recs) -> 0 <= escore e <= 1) /\
       (forall p, rightFit recs = Some p \/ baggyFit recs = Some p -> 0 <= pconfidence p <= 1).
Proof.
  destruct (calculateRecommendations numeric_rows chest_90 "top" (mkBaggy "size" 1))
    as [recs|] eqn:E; [|vm_compute in E; discriminate E].
  exists recs. split; [reflexivity|].
  exact (calculateRecommendations_scores_unit numeric_rows chest_90 "top" _ recs E).
Defined.

Lemma calculateRecommendations_picks_listed_witness :
  exists recs, calculateRecommendations numeric_rows chest_90 "top" (mkBaggy "size" 1) = Some recs
    /\ forall p, rightFit recs = Some p \/ baggyFit recs = Some p ->
       exists e, In e (allSizes recs) /\ esize e = psize p /\ escore e = pconfidence p.
Proof.
  destruct (calculateRecommendations numeric_rows chest_90 "top" (mkBaggy "size" 1))
    as [recs|] eqn:E; [|vm_compute in E; discriminate E].
  exists recs. split; [reflexivity|].
  exact (calculateRecommendations_picks_listed numeric_rows chest_90 "top" _ recs E).
Defined.




Lemma handler_null_baggyMargin_witness :
  handler (recommend_request Undefined Null) = mkResponse 500 FailBody.
Proof.
  apply (handler_null_baggyMargin _ (mkRequestBody (Some (mkSizeChartIn (Some numeric_rows)))
                                        (Some chest_90) Undefined Null)
           numeric_rows chest_90); try reflexivity; try discriminate.
  left; reflexivity.
Defined.

Lemma detectGarmentType_order_independent_witness :
  (Permutation (cheaders waist_hip_chart) (cheaders hip_waist_chart) /\
   Permutation (crows waist_hip_chart) (crows hip_waist_chart)) /\
  detectGarmentType waist_hip_chart = detectGarmentType hip_waist_chart.
Proof.
  split; [split; [apply perm_swap|apply Permutation_refl]|].
  apply detectGarmentType_order_independent; [apply perm_swap|apply Permutation_refl].
Defined.

Lemma detectGarmentType_bottom_evidence_witness :
  detectGarmentType waist_hip_chart = "bottom" /\
  exists i, In i bottomIndicators /\
    ((exists h pre post, In h (cheaders waist_hip_chart) /\ JsStr.toLowerCase h = (pre ++ i ++ post)%string) \/
     (exists row kv pre post, In row (crows waist_hip_chart) /\ In kv row /\
        JsStr.toLowerCase (fst kv) = (pre ++ i ++ post)%string)).
Proof.
  assert (H : detectGarmentType waist_hip_chart = "bottom") by (vm_compute; reflexivity).
  split; [exact H|]. exact (detectGarmentType_bottom_evidence waist_hip_chart H).
Defined.

Lemma parseSizeChart_shape_witness :
  let c := mkSizeChart ["length"; "chest"; "shoulder"; "waist"; "hip"]
             (rows top_table) [top_table; bottom_table] "Size S M" "Size S M" in
  parseSizeChart two_table_strategies (Some "Size S M") = Some c /\
  (crows c = match ctables c with [] => [] | t :: _ => rows t end /\
   (ctables c = [] -> cheaders c = []) /\
   (forall t h, In t (ctables c) -> In h (headers t) -> In h (cheaders c)) /\
   crawText c = "Size S M").
Proof.
  intros c.
  assert (H : parseSizeChart two_table_strategies (Some "Size S M") = Some c)
    by (vm_compute; reflexivity).
  split; [exact H|]. exact (parseSizeChart_shape two_table_strategies (Some "Size S M") c H).
Defined.
